(** * The resilient scraper of [exo6.py]: a shallow embedding and its properties

    The class [ResilientScraper] is embedded as a record of its attributes;
    its methods become computations in a state-and-exception monad over a
    [World] that holds the object together with what the process can observe
    of its surroundings: the checkpoint file, the number of requests sent and
    of checkpoint writes attempted, and a trace of the effects performed
    (sleeps, requests, log records, file writes).  The network, the disk, the
    clock and the HTML parser are oracles collected in an [Env].

    Python [float]s are IEEE binary64 numbers and are embedded as Rocq's
    primitive floats; Python [int]s are unbounded and are embedded as [Z]. *)

From Stdlib Require Import ZArith List String Ascii Bool Lia.
From Stdlib Require Import Floats DecimalString.
Import ListNotations.
Open Scope string_scope.
Open Scope list_scope.
Open Scope Z_scope.

Set Implicit Arguments.

(** ** The Python runtime the scraper relies on *)

Module Py.

(** The exception classes that reach the scraper's handlers.  [Timeout],
    [ConnectionError] and [HTTPError] are the [requests] exceptions (all
    subclasses of [RequestException], itself a subclass of [OSError]);
    [PyException] stands for any other subclass of [Exception]. *)
Inductive exn : Type :=
| KeyboardInterrupt
| Timeout
| ConnectionError
| HTTPError
| OSError
| RecursionError
| PyException.

Definition isinstance_Timeout (e : exn) : bool :=
  match e with Timeout => true | _ => false end.

Definition isinstance_RequestException (e : exn) : bool :=
  match e with Timeout | ConnectionError | HTTPError => true | _ => false end.

Definition isinstance_KeyboardInterrupt (e : exn) : bool :=
  match e with KeyboardInterrupt => true | _ => false end.

Definition isinstance_Exception (e : exn) : bool :=
  match e with KeyboardInterrupt => false | _ => true end.

(** [max(a, b)] and [min(a, b)] on two arguments: the builtin keeps the
    first argument unless the second compares strictly greater (smaller). *)
Definition max (a b : float) : float := if PrimFloat.ltb a b then b else a.
Definition min (a b : float) : float := if PrimFloat.ltb b a then b else a.

(** Conversion of an [int] operand in mixed arithmetic: the nearest
    binary64 number, ties to even.  (Beyond the range of binary64 CPython
    raises [OverflowError] where this yields an infinity; the integers of the
    scraper, a timeout and a retry count, are far below.) *)
Definition float_of_int (z : Z) : float :=
  SF2Prim (binary_normalize prec emax z 0 false).

(** [2 ** n] as it enters a product with a float. *)
Definition pow2 (n : Z) : float := Z.ldexp 1%float n.

(** [str(n)] for an [int]. *)
Definition str (n : Z) : string := NilZero.string_of_int (Z.to_int n).

(** [s.lower()], on the ASCII letters. *)
Definition lower_ascii (c : ascii) : ascii :=
  let n := nat_of_ascii c in
  if (65 <=? n)%nat && (n <=? 90)%nat then ascii_of_nat (n + 32) else c.

Fixpoint lower (s : string) : string :=
  match s with
  | EmptyString => EmptyString
  | String c s' => String (lower_ascii c) (lower s')
  end.

(** [needle in hay] on strings. *)
Fixpoint contains (needle hay : string) : bool :=
  String.prefix needle hay ||
  match hay with
  | EmptyString => false
  | String _ hay' => contains needle hay'
  end.

Fixpoint drop (n : nat) (s : string) : string :=
  match n, s with
  | S n', String _ s' => drop n' s'
  | _, _ => s
  end.

(** [s.replace(old, new)] for a non-empty [old]: every occurrence, scanning
    from the left and never overlapping. *)
Fixpoint replace_from (fuel : nat) (old new s : string) : string :=
  match fuel with
  | O => s
  | S fuel' =>
      match s with
      | EmptyString => EmptyString
      | String c s' =>
          if String.prefix old s
          then (new ++
                replace_from fuel' old new (drop (String.length old) s))%string
          else String c (replace_from fuel' old new s')
      end
  end.

Definition replace (old new s : string) : string :=
  replace_from (String.length s) old new s.

End Py.

Import Py.

(** ** Data *)

(** The [stats] dictionary, one field per key. *)
Record Stats : Type := mkStats {
  total_requests : Z;
  successful_requests : Z;
  failed_requests : Z;
  retries : Z;
  blocked_detections : Z;
  start_time : string;
  books_scraped : Z
}.

(** The dictionary [book_data] built by [scrape_book]. *)
Record Book : Type := mkBook {
  url : string;
  title : string;
  price : string;
  availability : string;
  rating : string;
  scraped_at : string
}.

(** What the scraper reads of a [requests.Response]. *)
Record Response : Type := mkResponse {
  status_code : Z;
  text : string
}.

(** The attributes of a [ResilientScraper] (the HTTP session is the network
    oracle of the environment). *)
Record ResilientScraper : Type := mkScraper {
  base_url : string;
  checkpoint_file : string;
  stats : Stats;
  delay : float;
  min_delay : float;
  max_delay : float;
  timeout : Z;
  max_retries : Z;
  scraped_books : list Book
}.

(** The checkpoint file: missing, present but unreadable as a JSON object, or
    a JSON object whose keys ['books'] and ['stats'] may each be absent and
    hold, when present, a list of books and a dictionary of counters.  (A
    JSON object with a value of another type under one of the two keys, such
    as [null], is not represented: [load_checkpoint] would store that value
    in the attribute as it is.) *)
Inductive FileContent : Type :=
| Absent
| Unreadable
| Json (books : option (list Book)) (stats : option Stats).

(** How a request ends: with a response, or with an exception. *)
Inductive NetResult : Type :=
| Responds (r : Response)
| Fails (e : exn).

(** How writing the checkpoint ends: the file is replaced; [open] raises and
    the file is untouched; or [json.dump] raises after [open] truncated it. *)
Inductive DiskResult : Type :=
| WriteOk
| OpenRaises (e : exn)
| DumpRaises (e : exn).

Inductive LogLevel : Type := DEBUG | INFO | WARNING | ERROR.

Inductive Event : Type :=
| ESleep (seconds : float)
| EGet (url : string) (timeout : float)
| ELog (level : LogLevel) (message : string)
| EWriteCheckpoint (r : DiskResult)
| EPrintStats
| ESaveResults.

(** What lies outside the object. *)
Record Host : Type := mkHost {
  disk_file : FileContent;
  sent : nat;
  written : nat;
  trace : list Event     (* newest event first *)
}.

Record World : Type := mkWorld {
  self : ResilientScraper;
  host : Host
}.

(** The fields BeautifulSoup extracts from a book page, each already
    defaulted to ['N/A'] when the tag is missing. *)
Record BookFields : Type := mkFields {
  f_title : string;
  f_price : string;
  f_availability : string;
  f_rating : string
}.

(** The oracles.  [net n u] is the outcome of the request to [u] issued
    after [n] earlier requests; [disk n] the outcome of the checkpoint write
    attempted after [n] earlier ones; [now n] the ISO timestamp read after
    [n] recorded events.  [soup_book] is the extraction of [scrape_book]
    ([None] when it raises); [soup_catalogue] lists, for every
    [article.product_pod] of a catalogue page, the [href] of its link
    ([None] when reading it raises).  [seconds_between start t] is
    [(t - datetime.fromisoformat(start)).total_seconds()] for the time [t]
    given by its timestamp: [None] when the expression raises, as it does
    when [fromisoformat] rejects [start]. *)
Record Env : Type := mkEnv {
  net : nat -> string -> NetResult;
  disk : nat -> DiskResult;
  now : nat -> string;
  soup_book : string -> option BookFields;
  soup_catalogue : string -> list (option string);
  seconds_between : string -> string -> option float
}.

(** ** The monad of methods: state and exceptions *)

Inductive Result (A : Type) : Type :=
| Ret (a : A) (w : World)
| Raise (e : exn) (w : World).

Arguments Raise {A} e w.

Definition M (A : Type) : Type := World -> Result A.

Definition ret {A} (a : A) : M A := fun w => Ret a w.

Definition raise {A} (e : exn) : M A := fun w => Raise e w.

Definition bind {A B} (m : M A) (k : A -> M B) : M B :=
  fun w => match m w with
           | Ret a w' => k a w'
           | Raise e w' => Raise e w'
           end.

(** [try: m  except ...: handler]; a handler re-raises what it does not
    catch. *)
Definition try_except {A} (m : M A) (handler : exn -> M A) : M A :=
  fun w => match m w with
           | Ret a w' => Ret a w'
           | Raise e w' => handler e w'
           end.

(** [try: m  finally: cleanup]. *)
Definition try_finally {A} (m : M A) (cleanup : M unit) : M A :=
  fun w => match m w with
           | Ret a w' =>
               match cleanup w' with
               | Ret _ w'' => Ret a w''
               | Raise e w'' => Raise e w''
               end
           | Raise e w' =>
               match cleanup w' with
               | Ret _ w'' => Raise e w''
               | Raise e' w'' => Raise e' w''
               end
           end.

Declare Scope py_scope.
Delimit Scope py_scope with py.
Notation "x <- m ;; k" := (bind m (fun x => k))
  (at level 61, m at next level, right associativity) : py_scope.
Notation "m ;; k" := (bind m (fun _ => k))
  (at level 61, right associativity) : py_scope.
Open Scope py_scope.

Definition world_of {A} (r : Result A) : World :=
  match r with Ret _ w => w | Raise _ w => w end.

(** Reading and writing the object and its surroundings. *)

Definition get_self : M ResilientScraper := fun w => Ret (self w) w.

Definition with_stats (f : Stats -> Stats) (s : ResilientScraper)
  : ResilientScraper :=
  mkScraper (base_url s) (checkpoint_file s) (f (stats s)) (delay s)
    (min_delay s) (max_delay s) (timeout s) (max_retries s) (scraped_books s).

Definition with_delay (d : float) (s : ResilientScraper) : ResilientScraper :=
  mkScraper (base_url s) (checkpoint_file s) (stats s) d
    (min_delay s) (max_delay s) (timeout s) (max_retries s) (scraped_books s).

Definition with_scraped_books (l : list Book) (s : ResilientScraper)
  : ResilientScraper :=
  mkScraper (base_url s) (checkpoint_file s) (stats s) (delay s)
    (min_delay s) (max_delay s) (timeout s) (max_retries s) l.

Definition set_stats (f : Stats -> Stats) : M unit :=
  fun w => Ret tt (mkWorld (with_stats f (self w)) (host w)).

Definition set_delay (d : float) : M unit :=
  fun w => Ret tt (mkWorld (with_delay d (self w)) (host w)).

Definition set_scraped_books (l : list Book) : M unit :=
  fun w => Ret tt (mkWorld (with_scraped_books l (self w)) (host w)).

Definition emit (e : Event) : M unit :=
  fun w =>
    let h := host w in
    Ret tt (mkWorld (self w)
              (mkHost (disk_file h) (sent h) (written h) (e :: trace h))).

Definition log (level : LogLevel) (message : string) : M unit :=
  emit (ELog level message).

(** [time.sleep(seconds)], for the non-negative durations the scraper
    computes.  (A negative duration, which [time.sleep] rejects with
    [ValueError], would take a negative delay or a negative retry count;
    the delay starts at 1.0 and is kept between [min_delay] and [max_delay],
    and the callers of [make_request] count the retries from 0.) *)
Definition sleep (seconds : float) : M unit := emit (ESleep seconds).

(** The increments of the counters. *)
Definition incr_total_requests (s : Stats) : Stats :=
  mkStats (total_requests s + 1) (successful_requests s) (failed_requests s)
    (retries s) (blocked_detections s) (start_time s) (books_scraped s).

Definition incr_successful_requests (s : Stats) : Stats :=
  mkStats (total_requests s) (successful_requests s + 1) (failed_requests s)
    (retries s) (blocked_detections s) (start_time s) (books_scraped s).

Definition incr_failed_requests (s : Stats) : Stats :=
  mkStats (total_requests s) (successful_requests s) (failed_requests s + 1)
    (retries s) (blocked_detections s) (start_time s) (books_scraped s).

Definition incr_retries (s : Stats) : Stats :=
  mkStats (total_requests s) (successful_requests s) (failed_requests s)
    (retries s + 1) (blocked_detections s) (start_time s) (books_scraped s).

Definition incr_blocked_detections (s : Stats) : Stats :=
  mkStats (total_requests s) (successful_requests s) (failed_requests s)
    (retries s) (blocked_detections s + 1) (start_time s) (books_scraped s).

Definition incr_books_scraped (s : Stats) : Stats :=
  mkStats (total_requests s) (successful_requests s) (failed_requests s)
    (retries s) (blocked_detections s) (start_time s) (books_scraped s + 1).

Set Warnings "-inexact-float".

(** ** The methods of [ResilientScraper] *)

Section Methods.

Variable env : Env.

(** [datetime.now().isoformat()]. *)
Definition datetime_now : M string :=
  fun w => Ret (now env (List.length (trace (host w)))) w.

(** [self.session.get(url, timeout=timeout)]. *)
Definition session_get (url : string) (timeout : float) : M Response :=
  fun w =>
    let h := host w in
    let w' := mkWorld (self w)
                (mkHost (disk_file h) (S (sent h)) (written h)
                   (EGet url timeout :: trace h)) in
    match net env (sent h) url with
    | Responds r => Ret r w'
    | Fails e => Raise e w'
    end.

(** [response.raise_for_status()] of [requests]: [HTTPError] on a 4xx or
    5xx status. *)
Definition raise_for_status (response : Response) : M unit :=
  if (400 <=? status_code response) && (status_code response <? 600)
  then raise HTTPError
  else ret tt.


(** [with open(path, 'r') as f: data = json.load(f)], then the two
    [data.get]. *)
Definition json_load : M (option (list Book) * option Stats) :=
  fun w =>
    match disk_file (host w) with
    | Json b s => Ret (b, s) w
    | _ => Raise PyException w
    end.

(** [with open(path, 'w') as f: json.dump(data, f, ...)]. *)
Definition json_dump (books : list Book) (st : Stats) : M unit :=
  fun w =>
    let h := host w in
    let r := disk env (written h) in
    let after (f : FileContent) :=
      mkWorld (self w)
        (mkHost f (sent h) (S (written h)) (EWriteCheckpoint r :: trace h)) in
    match r with
    | WriteOk => Ret tt (after (Json (Some books) (Some st)))
    | OpenRaises e => Raise e (after (disk_file h))
    | DumpRaises e => Raise e (after Unreadable)
    end.

Definition load_checkpoint : M unit :=
  fun w =>
    match disk_file (host w) with
    | Absent => Ret tt w
    | _ =>
        try_except
          (data <- json_load ;;
           s <- get_self ;;
           set_scraped_books
             (match fst data with Some l => l | None => [] end) ;;
           set_stats
             (fun _ =>
                match snd data with Some st => st | None => stats s end) ;;
           log INFO "Checkpoint charge")
          (fun e =>
             if isinstance_Exception e
             then log ERROR "Erreur lors du chargement du checkpoint"
             else raise e)
          w
    end.

(** [ResilientScraper(base_url, checkpoint_file)], run on a host. *)
Definition __init__ (base_url checkpoint_file : string) (h : Host)
  : Result unit :=
  let fresh :=
    mkScraper base_url checkpoint_file
      (mkStats 0 0 0 0 0 (now env (List.length (trace h))) 0)
      1.0%float 0.5%float 10.0%float 10 5 [] in
  load_checkpoint (mkWorld fresh h).

Definition save_checkpoint : M unit :=
  try_except
    (s <- get_self ;;
     _ <- datetime_now ;;
     json_dump (scraped_books s) (stats s) ;;
     log DEBUG "Checkpoint sauvegarde")
    (fun e =>
       if isinstance_Exception e
       then log ERROR "Erreur lors de la sauvegarde du checkpoint"
       else raise e).

Definition adaptive_delay (success : bool) : M unit :=
  s <- get_self ;;
  (if success
   then set_delay (Py.max (min_delay s) (delay s * 0.9)%float)
   else set_delay (Py.min (max_delay s) (delay s * 1.5)%float)) ;;
  log DEBUG "Delai ajuste".

Definition detect_blocking (response : Response) : M bool :=
  if existsb (Z.eqb (status_code response)) [403; 429] then
    set_stats incr_blocked_detections ;;
    log WARNING "Blocage potentiel detecte" ;;
    ret true
  else if contains "captcha" (lower (text response)) then
    set_stats incr_blocked_detections ;;
    log WARNING "Captcha detecte dans la reponse" ;;
    ret true
  else ret false.

(** [make_request] calls itself; [depth] bounds the nesting of calls, and
    [make_request] below starts with as much as the retry counter can use:
    with [max_retries = 5], as [__init__] sets it, at most six calls are
    nested.  (The limit of the interpreter itself, a thousand frames by
    default, would be met first only with a [max_retries] of that order.) *)
Fixpoint make_request_at (depth : nat) (url : string) (retries : Z)
  : M (option Response) :=
  match depth with
  | O => raise RecursionError
  | S depth' =>
      let again := make_request_at depth' url (retries + 1) in
      set_stats incr_total_requests ;;
      try_except
        (s <- get_self ;;
         sleep (delay s) ;;
         let timeout :=
           (float_of_int (timeout s)
            * (1 + float_of_int retries * 0.5))%float in
         response <- session_get url timeout ;;
         blocked <- detect_blocking response ;;
         if blocked then
           s <- get_self ;;
           if retries <? max_retries s then
             let wait_time := (delay s * pow2 retries)%float in
             log INFO "Attente avant retry" ;;
             sleep wait_time ;;
             set_stats incr_retries ;;
             again
           else
             log ERROR "Blocage confirme" ;;
             set_stats incr_failed_requests ;;
             ret None
         else
           raise_for_status response ;;
           set_stats incr_successful_requests ;;
           adaptive_delay true ;;
           ret (Some response))
        (fun e =>
           if isinstance_Timeout e then
             log WARNING "Timeout" ;;
             s <- get_self ;;
             if retries <? max_retries s then
               set_stats incr_retries ;;
               again
             else
               set_stats incr_failed_requests ;;
               adaptive_delay false ;;
               ret None
           else if isinstance_RequestException e then
             log ERROR "Erreur requete" ;;
             s <- get_self ;;
             if retries <? max_retries s then
               set_stats incr_retries ;;
               s <- get_self ;;
               sleep (delay s * float_of_int (retries + 1))%float ;;
               again
             else
               set_stats incr_failed_requests ;;
               adaptive_delay false ;;
               ret None
           else raise e)
  end.

Definition make_request (url : string) (retries : Z) : M (option Response) :=
  fun w =>
    make_request_at (S (Z.to_nat (max_retries (self w) - retries)))
      url retries w.

Definition ok (r : Response) : bool :=
  negb ((400 <=? status_code r) && (status_code r <? 600)).

(** The body of the [try] of [scrape_book] up to [book_data]: the
    extraction raises, or yields the four fields. *)
Definition extract_book (response : Response) : M BookFields :=
  match soup_book env (text response) with
  | Some fields => ret fields
  | None => raise PyException
  end.

Definition scrape_book (book_url : string) : M (option Book) :=
  s <- get_self ;;
  if existsb (fun book => String.eqb (url book) book_url) (scraped_books s)
  then
    log DEBUG "Livre deja scrape" ;;
    ret None
  else
    response <- make_request book_url 0 ;;
    match response with
    | None => ret None
    | Some r =>
        if negb (ok r) then ret None
        else
          try_except
            (fields <- extract_book r ;;
             stamp <- datetime_now ;;
             let book_data :=
               mkBook book_url (f_title fields) (f_price fields)
                 (f_availability fields) (f_rating fields) stamp in
             s <- get_self ;;
             set_scraped_books (scraped_books s ++ [book_data]) ;;
             set_stats incr_books_scraped ;;
             log INFO "Livre scrape" ;;
             ret (Some book_data))
            (fun e =>
               if isinstance_Exception e
               then log ERROR "Erreur lors du parsing" ;; ret None
               else raise e)
    end.

(** [print_stats] reads the object and logs.  It raises [ValueError] before
    any line is logged when [start_time] is no ISO timestamp, and
    [ZeroDivisionError], after the lines up to the current delay, when the
    speed is computed over no elapsed time at all; both are of class
    [Exception].  The success rate is guarded by [total_requests > 0].
    [EPrintStats] stands for the lines of the report. *)
Definition print_stats : M unit :=
  s <- get_self ;;
  t <- datetime_now ;;
  match seconds_between env (start_time (stats s)) t with
  | None => raise PyException
  | Some elapsed =>
      emit EPrintStats ;;
      if (0 <? books_scraped (stats s)) && PrimFloat.eqb elapsed 0
      then raise PyException
      else ret tt
  end.

(** [save_results] writes the results file, another file than the
    checkpoint, inside its own [try]/[except]. *)
Definition save_results : M unit := emit ESaveResults.

(** *** [scrape_catalogue]

    The crawl is the loop [while True] over pages around the loop [for]
    over the books of a page, inside [try]/[except]/[finally].  It is
    embedded as a machine that takes one step per iteration: [AtPage p] is
    the top of the [while] with [page = p], [InPage p books] the top of the
    [for] with [books] still to visit. *)

Inductive Loop : Type :=
| AtPage (page : Z)
| InPage (page : Z) (books : list (option string)).

Inductive Status : Type :=
| Running (l : Loop)
| Returned
| Raised (e : exn).

(** One iteration; [None] is [break]. *)
Definition iteration (l : Loop) : M (option Loop) :=
  match l with
  | AtPage page =>
      s <- get_self ;;
      let url :=
        if page =? 1
        then (base_url s ++ "/catalogue/page-" ++ str page ++ ".html")%string
        else (base_url s ++ "/catalogue/page-" ++ str page ++ ".html")%string in
      log INFO "Scraping de la page" ;;
      response <- make_request url 0 ;;
      match response with
      | None =>
          log WARNING "Impossible de recuperer la page" ;;
          ret None
      | Some r =>
          if negb (ok r) then
            log WARNING "Impossible de recuperer la page" ;;
            ret None
          else
            match soup_catalogue env (text r) with
            | [] =>
                log INFO "Aucun livre trouve, fin du catalogue" ;;
                ret None
            | books => ret (Some (InPage page books))
            end
      end
  | InPage page [] => ret (Some (AtPage (page + 1)))
  | InPage page (book :: rest) =>
      link <- match book with
              | Some href => ret href
              | None => raise PyException
              end ;;
      s <- get_self ;;
      let book_url :=
        (base_url s ++ "/catalogue/" ++ replace "../../../" "" link)%string in
      _ <- scrape_book book_url ;;
      s <- get_self ;;
      (if books_scraped (stats s) mod 10 =? 0
       then save_checkpoint ;; print_stats
       else ret tt) ;;
      ret (Some (InPage page rest))
  end.

(** The [except] and [finally] clauses, applied to the way the loop was
    left. *)
Definition leave (loop : M unit) : M unit :=
  try_finally
    (try_except loop
       (fun e =>
          if isinstance_KeyboardInterrupt e then
            log INFO "Interruption detectee, sauvegarde en cours" ;;
            save_checkpoint ;;
            print_stats ;;
            raise e
          else if isinstance_Exception e then
            log ERROR "Erreur critique" ;;
            save_checkpoint ;;
            raise e
          else raise e))
    (save_checkpoint ;; save_results).

Definition finish (r : Result unit) : Status * World :=
  match r with
  | Ret _ w => (Returned, w)
  | Raise e w => (Raised e, w)
  end.

Definition scrape_catalogue_step (c : Status * World) : Status * World :=
  match fst c with
  | Running l =>
      match iteration l (snd c) with
      | Ret (Some l') w' => (Running l', w')
      | Ret None w' => finish (leave (ret tt) w')
      | Raise e w' => finish (leave (raise e) w')
      end
  | _ => c
  end.

Definition scrape_catalogue_begin (w : World) : Status * World :=
  (Running (AtPage 1),
   world_of (log INFO "Debut du scraping du catalogue" w)).

Fixpoint scrape_catalogue_run (n : nat) (w : World) : Status * World :=
  match n with
  | O => scrape_catalogue_begin w
  | S n' => scrape_catalogue_step (scrape_catalogue_run n' w)
  end.

(** [scrape_catalogue] itself: what the call yields if it ends within [n]
    iterations. *)
Definition scrape_catalogue (n : nat) (w : World) : option (Result unit) :=
  match scrape_catalogue_run n w with
  | (Running _, _) => None
  | (Returned, w') => Some (Ret tt w')
  | (Raised e, w') => Some (Raise e w')
  end.

End Methods.

Unset Implicit Arguments.

(** ** Notions used by the statements *)

(** A string contains [word] up to the case of its letters: some substring
    becomes [word] once both are put in lower case. *)
Definition contains_ignoring_case (word body : string) : Prop :=
  exists pre mid post : string,
    body = (pre ++ mid ++ post)%string /\ lower mid = lower word.

(** The object after a series of outcomes reported to the rate controller. *)
Fixpoint after_outcomes (outcomes : list bool) (w : World) : World :=
  match outcomes with
  | [] => w
  | success :: rest => after_outcomes rest (world_of (adaptive_delay success w))
  end.

(** The durations slept so far, oldest first. *)
Fixpoint sleeps (t : list Event) : list float :=
  match t with
  | [] => []
  | ESleep d :: t' => sleeps t' ++ [d]
  | _ :: t' => sleeps t'
  end.

Definition slept (w : World) : list float := sleeps (trace (host w)).

(** What [make_request] never touches: the settings, the books gathered and
    their count, and the checkpoint file. *)
Definition kept (w : World) :=
  (base_url (self w), checkpoint_file (self w), min_delay (self w),
   max_delay (self w), timeout (self w), max_retries (self w),
   scraped_books (self w), books_scraped (stats (self w)),
   start_time (stats (self w)), disk_file (host w), written (host w)).

(** The keys of the books gathered. *)
Definition keys (w : World) : list string := map url (scraped_books (self w)).

(** The books a restart would load from the checkpoint file. *)
Definition persisted (f : FileContent) : list Book :=
  match f with
  | Json (Some l) _ => l
  | _ => []
  end.

(** The file holds exactly the progress in memory. *)
Definition checkpointed (w : World) : Prop :=
  disk_file (host w) =
  Json (Some (scraped_books (self w))) (Some (stats (self w))).

(** One call of [make_request] seen from its caller: it is done, or it calls
    itself with the next retry count from a new world. *)
Inductive Step : Type :=
| Done (r : Result (option Response))
| Again (w : World).

Section Attempt.

Variable env : Env.

Definition on_timeout (retries : Z) (w : World) : Step :=
  let w' := world_of (log WARNING "Timeout" w) in
  if retries <? max_retries (self w')
  then Again (world_of (set_stats incr_retries w'))
  else Done ((set_stats incr_failed_requests ;;
              adaptive_delay false ;; ret None) w').

Definition on_request_error (retries : Z) (w : World) : Step :=
  let w' := world_of (log ERROR "Erreur requete" w) in
  if retries <? max_retries (self w')
  then Again (world_of
                ((set_stats incr_retries ;;
                  sleep (delay (self w') * float_of_int (retries + 1))%float)
                   w'))
  else Done ((set_stats incr_failed_requests ;;
              adaptive_delay false ;; ret None) w').

Definition attempt (url : string) (retries : Z) (w : World) : Step :=
  let w0 := world_of (set_stats incr_total_requests w) in
  let s := self w0 in
  let t :=
    (float_of_int (timeout s) * (1 + float_of_int retries * 0.5))%float in
  let w1 := world_of ((sleep (delay s) ;; session_get env url t) w0) in
  match net env (sent (host w)) url with
  | Responds response =>
      match detect_blocking response w1 with
      | Ret true w2 =>
          if retries <? max_retries (self w2)
          then Again (world_of
                        ((log INFO "Attente avant retry" ;;
                          sleep (delay (self w2) * pow2 retries)%float ;;
                          set_stats incr_retries) w2))
          else Done ((log ERROR "Blocage confirme" ;;
                      set_stats incr_failed_requests ;; ret None) w2)
      | Ret false w2 =>
          if ok response
          then Done ((set_stats incr_successful_requests ;;
                      adaptive_delay true ;; ret (Some response)) w2)
          else on_request_error retries w2
      | Raise e w2 => Done (Raise e w2)
      end
  | Fails e =>
      if isinstance_Timeout e then on_timeout retries w1
      else if isinstance_RequestException e then on_request_error retries w1
      else Done (Raise e w1)
  end.

(** The worlds a process can be in: a first start on a host without
    checkpoint, a restart on the host left by an earlier run, and whatever
    the methods lead to. *)
Inductive reachable : World -> Prop :=
| reach_start (base cf : string) :
    reachable (world_of (__init__ env base cf (mkHost Absent 0 0 [])))
| reach_restart (w : World) (base cf : string) :
    reachable w -> reachable (world_of (__init__ env base cf (host w)))
| reach_make_request (w : World) (url : string) (retries : Z) :
    reachable w -> reachable (world_of (make_request env url retries w))
| reach_scrape_book (w : World) (book_url : string) :
    reachable w -> reachable (world_of (scrape_book env book_url w))
| reach_save_checkpoint (w : World) :
    reachable w -> reachable (world_of (save_checkpoint env w))
| reach_scrape_catalogue (w : World) (n : nat) :
    reachable w -> reachable (snd (scrape_catalogue_run env n w)).

End Attempt.

(** A result that is not an exception of [requests]. *)
Definition quiet {A : Type} (r : Result A) : Prop :=
  match r with
  | Ret _ _ => True
  | Raise e _ => isinstance_RequestException e = false
  end.

Ltac run :=
  cbv beta iota zeta delta
    [bind try_except try_finally ret raise get_self set_stats set_delay
     set_scraped_books with_stats with_delay with_scraped_books emit log
     sleep session_get world_of adaptive_delay raise_for_status ok
     self host stats delay min_delay max_delay timeout max_retries
     scraped_books base_url checkpoint_file disk_file sent written trace].

(** ** Scenarios

    Concrete surroundings on which the methods are run: the network answers
    the [n]-th request with the [n]-th element of a script (and with its
    default afterwards), the disk follows a script of its own, every book
    page parses, and the catalogue pages are given by a table.  The clock
    always reads the same stamp, the only string that parses as one, and a
    minute is taken to have passed since. *)

Definition scene (answers : list NetResult) (default : NetResult)
    (writes : nat -> DiskResult)
    (catalogue : string -> list (option string)) : Env :=
  mkEnv (fun n _ => nth n answers default)
    writes
    (fun _ => "2024-01-01T00:00:00")
    (fun page => Some (mkFields page "£51.77" "In stock" "Three"))
    catalogue
    (fun start _ =>
       if String.eqb start "2024-01-01T00:00:00" then Some 60%float else None).

Definition no_catalogue : string -> list (option string) := fun _ => [].

Definition always_ok : nat -> DiskResult := fun _ => WriteOk.

Definition clean_host : Host := mkHost Absent 0 0 [].

(** A scraper freshly built on a host without checkpoint. *)
Definition fresh (env : Env) : World :=
  world_of (__init__ env "http://books.toscrape.com" "checkpoint.json"
              clean_host).

Definition http (status : Z) (body : string) : NetResult :=
  Responds (mkResponse status body).

(** Every request is answered 429. *)
Definition env_always_429 : Env :=
  scene [] (http 429 "Too Many Requests") always_ok no_catalogue.

(** Every request times out. *)
Definition env_always_timeout : Env :=
  scene [] (Fails Timeout) always_ok no_catalogue.

(** Two timeouts, then a page. *)
Definition env_two_timeouts : Env :=
  scene [Fails Timeout; Fails Timeout] (http 200 "<html></html>")
    always_ok no_catalogue.

(** Two refused connections, then a page. *)
Definition env_two_refusals : Env :=
  scene [Fails ConnectionError; Fails ConnectionError]
    (http 200 "<html></html>") always_ok no_catalogue.

(** A 404, then a page. *)
Definition env_404_then_200 : Env :=
  scene [http 404 "Not Found"] (http 200 "<html></html>")
    always_ok no_catalogue.

(** A 429, then a page. *)
Definition env_429_then_200 : Env :=
  scene [http 429 "Too Many Requests"] (http 200 "<html></html>")
    always_ok no_catalogue.

(** The disk fails at every write, after truncating the file. *)
Definition env_disk_full : Env :=
  scene [] (http 200 "<html></html>") (fun _ => DumpRaises OSError)
    no_catalogue.

(** A catalogue of twelve books on one page; the second page is empty. *)
Definition twelve_links : list (option string) :=
  map (fun n =>
         Some ("../../../book-" ++ Py.str (Z.of_nat n) ++ "/index.html")%string)
    (seq 1 12).

Definition env_crawl : Env :=
  scene [http 200 "<page 1>"] (http 200 "<book>") always_ok
    (fun page => if String.eqb page "<page 1>" then twelve_links else []).

(** The operator interrupts the first request. *)
Definition env_interrupted : Env :=
  scene [Fails KeyboardInterrupt] (http 200 "<book>") always_ok no_catalogue.

(** A host whose checkpoint holds no book and a [start_time] that is no
    timestamp. *)
Definition stale_host : Host :=
  mkHost (Json (Some []) (Some (mkStats 0 0 0 0 0 "yesterday" 0))) 0 0 [].

(** A catalogue of twenty-five books on one page, and a disk whose second
    write fails after [open] has truncated the file. *)
Definition twenty_five_links : list (option string) :=
  map (fun n =>
         Some ("../../../book-" ++ Py.str (Z.of_nat n) ++ "/index.html")%string)
    (seq 1 25).

Definition env_failed_write : Env :=
  scene [http 200 "<page 1>"] (http 200 "<book>")
    (fun k => if (k =? 1)%nat then DumpRaises OSError else WriteOk)
    (fun page => if String.eqb page "<page 1>" then twenty_five_links else []).

(** A method keeps a property of the world, however it ends. *)
Definition preserves {A : Type} (P : World -> Prop) (m : M A) : Prop :=
  forall w, P w -> P (world_of (m w)).

(** A property of the world that only reads what [make_request] keeps. *)
Definition stable (P : World -> Prop) : Prop :=
  forall w w', kept w' = kept w -> P w -> P w'.

(** No key occurs twice, in memory or in the checkpoint file. *)
Definition distinct_keys (w : World) : Prop :=
  NoDup (keys w) /\ NoDup (map url (persisted (disk_file (host w)))).

(** The books in memory are those of the checkpoint file followed by at most
    [books_scraped mod 10] others. *)
Definition covered (w : World) : Prop :=
  exists extra : list Book,
    scraped_books (self w) = persisted (disk_file (host w)) ++ extra /\
    Z.of_nat (List.length extra) <= books_scraped (stats (self w)) mod 10.

(** ** The entry point and further notions

    [main] builds the scraper on the host, runs the crawl and reports; as
    for [scrape_catalogue], the count [n] bounds the iterations of the crawl
    and [None] means that the crawl has not ended within them. *)

Definition main (env : Env) (n : nat) (h : Host) : option (Result unit) :=
  match __init__ env "http://books.toscrape.com" "checkpoint.json" h with
  | Raise e w => Some (Raise e w)
  | Ret _ scraper =>
      match scrape_catalogue env n scraper with
      | None => None
      | Some crawl =>
          Some
            (try_finally
               (try_except
                  ((fun _ => crawl) ;;
                   print_stats env ;;
                   log INFO "Scraping termine avec succes")
                  (fun e =>
                     if isinstance_KeyboardInterrupt e then
                       log INFO "Scraping interrompu par l'utilisateur"
                     else if isinstance_Exception e then
                       log ERROR "Erreur fatale"
                     else raise e))
               (print_stats env)
               scraper)
      end
  end.

(** The settings [__init__] gives, which no method changes, with a delay
    within the bounds [adaptive_delay] keeps it in.  On such a scraper and
    for a retry count from 0 to [max_retries], every duration slept is one
    that [time.sleep] accepts, and [make_request] nests at most six calls,
    far from the depth at which the interpreter raises [RecursionError]. *)
Definition as_built (w : World) : Prop :=
  (min_delay (self w), max_delay (self w), timeout (self w),
   max_retries (self w)) = (0.5%float, 10%float, 10, 5) /\
  (0.5 <=? delay (self w))%float = true /\
  (delay (self w) <=? 10)%float = true.

(** The verdict of [detect_blocking], without its bookkeeping. *)
Definition blocks (response : Response) : bool :=
  existsb (Z.eqb (status_code response)) [403; 429]
  || contains "captcha" (lower (text response)).

(** An answer that cannot end a fetch with a response: an exception of
    [requests], a blocked response, or a 4xx or 5xx. *)
Definition fruitless (answer : NetResult) : bool :=
  match answer with
  | Responds r => blocks r || negb (ok r)
  | Fails e => isinstance_RequestException e
  end.

(** Every request of the trace comes right after a sleep. *)
Fixpoint polite (t : list Event) : bool :=
  match t with
  | [] => true
  | EGet _ _ :: rest =>
      match rest with
      | ESleep _ :: _ => polite rest
      | _ => false
      end
  | _ :: rest => polite rest
  end.

(** The counter [books_scraped] is the number of books, in memory and in the
    checkpoint file. *)
Definition counted (l : list Book) (st : Stats) : Prop :=
  books_scraped st = Z.of_nat (List.length l).

Definition consistent (w : World) : Prop :=
  counted (scraped_books (self w)) (stats (self w)) /\
  match disk_file (host w) with
  | Json b s =>
      exists l st, b = Some l /\ s = Some st /\ counted l st
  | _ => True
  end.

(** The writes of the checkpoint fail, if they do, with an exception of
    class [Exception]. *)
Definition disk_never_interrupts (env : Env) : Prop :=
  forall (k : nat) (e : exn),
    disk env k = OpenRaises e \/ disk env k = DumpRaises e ->
    isinstance_Exception e = true.

(** The key [scrape_catalogue] gives to the book behind a link. *)
Definition book_url_of (w : World) (href : string) : string :=
  (base_url (self w) ++ "/catalogue/" ++ replace "../../../" "" href)%string.

(** The books of [w0], and then some, [books_scraped] having grown by their
    number. *)
Definition extends (w0 w : World) : Prop :=
  exists extra : list Book,
    scraped_books (self w) = scraped_books (self w0) ++ extra /\
    books_scraped (stats (self w))
    = books_scraped (stats (self w0)) + Z.of_nat (List.length extra).

(** ** Block detection *)

Lemma prefix_app (a s : string) :
  String.prefix a s = true <-> exists t, s = (a ++ t)%string.
Proof.
  revert s; induction a as [|c a IH]; intros s.
  - split; [intros _; exists s; reflexivity|].
    intros _; destruct s; reflexivity.
  - destruct s as [|c' s]; simpl.
    + split; [discriminate | intros [t H]; discriminate].
    + destruct (Ascii.ascii_dec c c') as [->|n].
      * rewrite IH. split; intros [t H]; exists t; congruence.
      * split; [discriminate | intros [t H]; congruence].
Qed.

Lemma contains_app (needle hay : string) :
  contains needle hay = true <->
  exists pre post, hay = (pre ++ needle ++ post)%string.
Proof.
  induction hay as [|c hay IH]; cbn [contains].
  - rewrite orb_false_r, prefix_app. split.
    + intros [t H]. exists EmptyString, t. exact H.
    + intros (pre & post & H).
      destruct pre; [exists post; exact H|discriminate].
  - rewrite orb_true_iff, prefix_app, IH. split.
    + intros [[t H] | (pre & post & H)].
      * exists EmptyString, t. exact H.
      * exists (String c pre), post. simpl. congruence.
    + intros (pre & post & H). destruct pre as [|c' pre]; simpl in H.
      * left. exists post. exact H.
      * right. exists pre, post. congruence.
Qed.

Lemma lower_app (s t : string) : lower (s ++ t) = (lower s ++ lower t)%string.
Proof. induction s; simpl; congruence. Qed.

Lemma lower_split (s a b : string) :
  lower s = (a ++ b)%string ->
  exists s1 s2, s = (s1 ++ s2)%string /\ lower s1 = a /\ lower s2 = b.
Proof.
  revert s; induction a as [|c a IH]; intros s H; simpl in H.
  - exists EmptyString, s. auto.
  - destruct s as [|c' s]; simpl in H; [discriminate|].
    injection H as Hc Hs. destruct (IH _ Hs) as (s1 & s2 & -> & <- & <-).
    exists (String c' s1), s2. simpl. rewrite Hc. auto.
Qed.

Lemma contains_lower (word body : string) :
  lower word = word ->
  contains word (lower body) = true <-> contains_ignoring_case word body.
Proof.
  intros Hw. rewrite contains_app. split.
  - intros (p & q & H).
    destruct (lower_split _ _ _ H) as (pre & rest & -> & <- & H1).
    destruct (lower_split _ _ _ H1) as (mid & post & -> & H2 & <-).
    exists pre, mid, post. split; [reflexivity | congruence].
  - intros (pre & mid & post & -> & H).
    exists (lower pre), (lower post).
    rewrite !lower_app, H, Hw. reflexivity.
Qed.

(** C2: [detect_blocking] answers [True] exactly when the status is 403 or
    429 or the body contains "captcha" up to case; the answer depends on the
    response alone, and the call never raises. *)
Theorem detect_blocking_iff (response : Response) :
  exists blocked : bool,
    (forall w : World, exists w', detect_blocking response w = Ret blocked w')
    /\ (blocked = true <->
        status_code response = 403 \/ status_code response = 429
        \/ contains_ignoring_case "captcha" (text response)).
Proof.
  pose proof (@contains_lower "captcha" (text response) eq_refl) as Hc.
  unfold detect_blocking; simpl.
  destruct (Z.eqb_spec (status_code response) 403) as [E1|N1]; simpl.
  { exists true. split; [intros w; eexists; reflexivity | tauto]. }
  destruct (Z.eqb_spec (status_code response) 429) as [E2|N2]; simpl.
  { exists true. split; [intros w; eexists; reflexivity | tauto]. }
  destruct (contains "captcha" (lower (text response))) eqn:E.
  - exists true. split; [intros w; eexists; reflexivity|].
    split; [intros _; right; right; apply Hc; reflexivity | reflexivity].
  - exists false. split; [intros w; eexists; reflexivity|].
    split; [discriminate|].
    intros [H|[H|H]]; [contradiction | contradiction |].
    apply Hc in H. discriminate.
Qed.

(** ** The rate controller *)

Lemma init_settings (env : Env) (base cf : string) (h : Host) :
  exists w0,
    __init__ env base cf h = Ret tt w0 /\
    delay (self w0) = 1%float /\ min_delay (self w0) = 0.5%float /\
    max_delay (self w0) = 10%float /\ max_retries (self w0) = 5 /\
    timeout (self w0) = 10.
Proof.
  unfold __init__, load_checkpoint.
  destruct h as [f n m t]; destruct f as [| |b s]; simpl;
    eexists; (split; [reflexivity|]); simpl; auto.
Qed.

Lemma adaptive_delay_step (success : bool) (w : World) :
  exists w',
    adaptive_delay success w = Ret tt w' /\
    delay (self w') =
      (if success
       then Py.max (min_delay (self w)) (delay (self w) * 0.9)
       else Py.min (max_delay (self w)) (delay (self w) * 1.5))%float /\
    min_delay (self w') = min_delay (self w) /\
    max_delay (self w') = max_delay (self w).
Proof.
  destruct success; eexists; (split; [reflexivity|]); simpl; auto.
Qed.

Lemma delay_after_outcomes (success : bool) (k : nat) (w : World) :
  delay (self (after_outcomes (repeat success k) w)) =
  Nat.iter k
    (fun d => if success
              then Py.max (min_delay (self w)) (d * 0.9)
              else Py.min (max_delay (self w)) (d * 1.5))%float
    (delay (self w)).
Proof.
  revert w; induction k as [|k IH]; intros w; [reflexivity|].
  rewrite Nat.iter_succ_r. cbn [repeat after_outcomes].
  destruct (adaptive_delay_step success w) as (w' & E & Hd & Hmin & Hmax).
  rewrite E; cbn [world_of]. rewrite IH, Hd, Hmin, Hmax. reflexivity.
Qed.

Lemma cooling_floor (k : nat) :
  Nat.iter (7 + k) (fun d => Py.max 0.5 (d * 0.9))%float 1%float = 0.5%float.
Proof.
  induction k as [|k IH]; [vm_compute; reflexivity|].
  rewrite Nat.add_succ_r, Nat.iter_succ, IH. vm_compute; reflexivity.
Qed.

Lemma heating_ceiling (k : nat) :
  Nat.iter (6 + k) (fun d => Py.min 10 (d * 1.5))%float 1%float = 10%float.
Proof.
  induction k as [|k IH]; [vm_compute; reflexivity|].
  rewrite Nat.add_succ_r, Nat.iter_succ, IH. vm_compute; reflexivity.
Qed.

(** C3: [adaptive_delay] sets the delay to [max(min_delay, delay * 0.9)] on a
    success and to [min(max_delay, delay * 1.5)] on a failure; from a freshly
    built scraper (delay 1.0, bounds 0.5 and 10) the delay along any run of
    successes never grows and stays at or above 0.5, and along any run of
    failures never shrinks and stays at or below 10. *)
Theorem adaptive_delay_law :
  (forall (success : bool) (w : World),
      exists w',
        adaptive_delay success w = Ret tt w' /\
        delay (self w') =
          (if success
           then Py.max (min_delay (self w)) (delay (self w) * 0.9)
           else Py.min (max_delay (self w)) (delay (self w) * 1.5))%float)
  /\
  (forall (env : Env) (base cf : string) (h : Host),
      let w0 := world_of (__init__ env base cf h) in
      let cooled k := delay (self (after_outcomes (repeat true k) w0)) in
      let heated k := delay (self (after_outcomes (repeat false k) w0)) in
      delay (self w0) = 1%float /\
      min_delay (self w0) = 0.5%float /\
      max_delay (self w0) = 10%float /\
      forall n : nat,
        (cooled (S n) <=? cooled n)%float = true /\
        (min_delay (self w0) <=? cooled n)%float = true /\
        (heated n <=? heated (S n))%float = true /\
        (heated n <=? max_delay (self w0))%float = true).
Proof.
  split.
  - intros success w.
    destruct (adaptive_delay_step success w) as (w' & E & Hd & _).
    exists w'. auto.
  - intros env base cf h.
    destruct (init_settings env base cf h) as (w0 & E & Hd & Hmin & Hmax & _).
    rewrite E; cbn [world_of]. cbv zeta.
    repeat (split; [assumption|]).
    intros n. rewrite !delay_after_outcomes, Hd, Hmin, Hmax.
    split; [|split; [|split]].
    + do 7 (destruct n as [|n]; [vm_compute; reflexivity|]).
      change (S (S (S (S (S (S (S (S n)))))))) with (7 + S n)%nat.
      change (S (S (S (S (S (S (S n))))))) with (7 + n)%nat.
      rewrite !cooling_floor. reflexivity.
    + do 7 (destruct n as [|n]; [vm_compute; reflexivity|]).
      change (S (S (S (S (S (S (S n))))))) with (7 + n)%nat.
      rewrite cooling_floor. reflexivity.
    + do 6 (destruct n as [|n]; [vm_compute; reflexivity|]).
      change (S (S (S (S (S (S (S n))))))) with (6 + S n)%nat.
      change (S (S (S (S (S (S n)))))) with (6 + n)%nat.
      rewrite !heating_ceiling. reflexivity.
    + do 6 (destruct n as [|n]; [vm_compute; reflexivity|]).
      change (S (S (S (S (S (S n)))))) with (6 + n)%nat.
      rewrite heating_ceiling. reflexivity.
Qed.

(** ** One logical fetch *)

Section Fetch.

Variable env : Env.

Lemma make_request_at_quiet (d : nat) :
  forall url r w, quiet (make_request_at env d url r w).
Proof.
  induction d as [|d IH]; intros url r w; [reflexivity|].
  cbn [make_request_at]. unfold bind at 1. cbn [set_stats].
  unfold try_except at 1.
  match goal with
  | |- quiet (match ?b with _ => _ end) => destruct b as [a w'|e w']
  end; [exact I|].
  destruct e; cbn [isinstance_Timeout isinstance_RequestException];
    try reflexivity; run;
    (destruct (r <? _); [apply IH | exact I]).
Qed.

Lemma not_request_not_timeout (e : exn) :
  isinstance_RequestException e = false -> isinstance_Timeout e = false.
Proof. destruct e; simpl; congruence. Qed.

Lemma detect_blocking_returns (resp : Response) (w : World) :
  exists (b : bool) (msg : string),
    detect_blocking resp w =
    if b
    then Ret true
           (world_of ((set_stats incr_blocked_detections ;;
                       log WARNING msg) w))
    else Ret false w.
Proof.
  unfold detect_blocking.
  destruct (existsb _ _); [exists true; eexists; reflexivity|].
  destruct (contains _ _);
    [exists true; eexists | exists false, EmptyString]; reflexivity.
Qed.

(** A call is one attempt, followed by the nested call when the attempt
    asks for it: the [try] around the nested call of the blocked branch
    never catches anything. *)
Lemma make_request_at_step (d : nat) (url : string) (r : Z) (w : World) :
  make_request_at env (S d) url r w =
  match attempt env url r w with
  | Done res => res
  | Again w' => make_request_at env d url (r + 1) w'
  end.
Proof.
  cbn [make_request_at]. unfold attempt, on_timeout, on_request_error. run.
  destruct (net env _ url) as [resp|e].
  - match goal with
    | |- context [detect_blocking resp ?x] =>
        destruct (detect_blocking_returns resp x) as (b & msg & ->)
    end.
    destruct b.
    + run. destruct (r <? _); [|reflexivity].
      match goal with
      | |- context [make_request_at env d url (r + 1) ?x] =>
          pose proof (make_request_at_quiet d url (r + 1) x) as Q;
          destruct (make_request_at env d url (r + 1) x) as [a w3|e w3]
      end; [reflexivity|].
      simpl in Q. rewrite (not_request_not_timeout _ Q), Q. reflexivity.
    + destruct (_ && _); [|reflexivity].
      cbn [isinstance_Timeout isinstance_RequestException negb].
      destruct (r <? _); reflexivity.
  - destruct (isinstance_Timeout e) eqn:E1.
    + destruct (r <? _); reflexivity.
    + destruct (isinstance_RequestException e); [|reflexivity].
      destruct (r <? _); reflexivity.
Qed.

(** What one attempt does to the world. *)
Lemma attempt_spec (url : string) (r : Z) (w : World) :
  match attempt env url r w with
  | Done res =>
      kept (world_of res) = kept w /\
      sent (host (world_of res)) = S (sent (host w)) /\
      total_requests (stats (self (world_of res))) =
        total_requests (stats (self w)) + 1
  | Again w' =>
      r < max_retries (self w) /\
      kept w' = kept w /\
      sent (host w') = S (sent (host w)) /\
      total_requests (stats (self w')) = total_requests (stats (self w)) + 1
  end.
Proof.
  unfold attempt, on_timeout, on_request_error.
  destruct w as [[bu cf st dl mn mx to mr bk] [f n m tr]]. run.
  destruct (net env n url) as [resp|e].
  - match goal with
    | |- context [detect_blocking resp ?x] =>
        destruct (detect_blocking_returns resp x) as (b & msg & ->)
    end.
    destruct b; run.
    + destruct (Z.ltb_spec r mr); cbn; auto.
    + destruct (_ && _); cbn; auto.
      destruct (Z.ltb_spec r mr); cbn; auto.
  - destruct (isinstance_Timeout e).
    + destruct (Z.ltb_spec r mr); cbn; auto.
    + destruct (isinstance_RequestException e); cbn; auto.
      destruct (Z.ltb_spec r mr); cbn; auto.
Qed.

Lemma kept_max_retries (w w' : World) :
  kept w' = kept w -> max_retries (self w') = max_retries (self w).
Proof. unfold kept. intros H. injection H. auto. Qed.

(** The attempts of a call: at least one, at most the retries left plus
    one; [total_requests] counts them; nothing else of note changes. *)
Lemma make_request_at_attempts (d : nat) :
  forall url r w,
    (Z.to_nat (max_retries (self w) - r) < d)%nat ->
    let w' := world_of (make_request_at env d url r w) in
    kept w' = kept w /\
    (sent (host w) < sent (host w'))%nat /\
    Z.of_nat (sent (host w')) - Z.of_nat (sent (host w))
      <= Z.max 1 (max_retries (self w) - r + 1) /\
    total_requests (stats (self w')) - total_requests (stats (self w))
      = Z.of_nat (sent (host w')) - Z.of_nat (sent (host w)).
Proof.
  induction d as [|d IH]; intros url r w Hd; [lia|].
  cbv zeta. rewrite make_request_at_step.
  pose proof (attempt_spec url r w) as A.
  destruct (attempt env url r w) as [res|w1].
  - destruct A as (K & S1 & T1). rewrite S1, T1. repeat split; try lia.
    exact K.
  - destruct A as (Hr & K & S1 & T1).
    pose proof (kept_max_retries _ _ K) as Hk.
    destruct (IH url (r + 1) w1) as (K2 & S2 & B2 & T2); [lia|].
    rewrite Hk, S1, T1 in *. repeat split; try lia. congruence.
Qed.

(** The depth given to a call does not matter once it exceeds the retries
    left. *)
Lemma make_request_at_depth (d1 : nat) :
  forall d2 url r w,
    (Z.to_nat (max_retries (self w) - r) < d1)%nat ->
    (Z.to_nat (max_retries (self w) - r) < d2)%nat ->
    make_request_at env d1 url r w = make_request_at env d2 url r w.
Proof.
  induction d1 as [|d1 IH]; intros d2 url r w H1 H2; [lia|].
  destruct d2 as [|d2]; [lia|].
  rewrite !make_request_at_step.
  pose proof (attempt_spec url r w) as A.
  destruct (attempt env url r w) as [res|w1]; [reflexivity|].
  destruct A as (Hr & K & _). apply kept_max_retries in K.
  apply IH; lia.
Qed.

Lemma make_request_unfold (url : string) (r : Z) (w : World) :
  make_request env url r w =
  match attempt env url r w with
  | Done res => res
  | Again w' => make_request env url (r + 1) w'
  end.
Proof.
  unfold make_request at 1. rewrite make_request_at_step.
  pose proof (attempt_spec url r w) as A.
  destruct (attempt env url r w) as [res|w1]; [reflexivity|].
  destruct A as (Hr & K & _). apply kept_max_retries in K.
  unfold make_request. apply make_request_at_depth; lia.
Qed.

Lemma make_request_kept (url : string) (r : Z) (w : World) :
  kept (world_of (make_request env url r w)) = kept w.
Proof.
  unfold make_request.
  apply (make_request_at_attempts _ url r w). lia.
Qed.

Lemma make_request_quiet (url : string) (r : Z) (w : World) :
  quiet (make_request env url r w).
Proof. apply make_request_at_quiet. Qed.

End Fetch.

(** C1: a fetch started with [retries = 0] sends at least one and at most
    [max_retries + 1] requests, whatever the network answers; it counts each
    of them in [total_requests]; and the nesting of the calls never exceeds
    [max_retries + 1], so that any deeper stack yields the same outcome. *)
Theorem retry_bound (env : Env) (url : string) (w : World) :
  0 <= max_retries (self w) ->
  let outcome := make_request env url 0 w in
  let attempts :=
    Z.of_nat (sent (host (world_of outcome))) - Z.of_nat (sent (host w)) in
  1 <= attempts <= max_retries (self w) + 1 /\
  total_requests (stats (self (world_of outcome))) =
    total_requests (stats (self w)) + attempts /\
  forall depth : nat,
    (Z.to_nat (max_retries (self w)) < depth)%nat ->
    make_request_at env depth url 0 w = outcome.
Proof.
  intros Hk. cbv zeta. unfold make_request.
  destruct (make_request_at_attempts env
              (S (Z.to_nat (max_retries (self w) - 0))) url 0 w)
    as (_ & S1 & B1 & T1); [lia|].
  repeat split; try lia.
  intros depth Hd. apply make_request_at_depth; lia.
Qed.

(** Six timeouts in a row with the default [max_retries = 5]. *)
Lemma retry_bound_witness :
  let w := fresh env_always_timeout in
  0 <= max_retries (self w) /\
  1 <= Z.of_nat
         (sent (host (world_of (make_request env_always_timeout "u" 0 w))))
       - Z.of_nat (sent (host w))
    <= max_retries (self w) + 1.
Proof.
  split; [vm_compute; discriminate|].
  apply (retry_bound env_always_timeout "u" (fresh env_always_timeout)).
  vm_compute; discriminate.
Defined.

(** ** How one attempt ends *)

Lemma ltb_true (a b : Z) : a < b -> (a <? b) = true.
Proof. intros H. apply Z.ltb_lt. exact H. Qed.

Lemma ltb_false (a b : Z) : b <= a -> (a <? b) = false.
Proof. intros H. apply Z.ltb_ge. exact H. Qed.

Lemma detect_blocking_clean (resp : Response) (w : World) :
  status_code resp <> 403 -> status_code resp <> 429 ->
  ~ contains_ignoring_case "captcha" (text resp) ->
  detect_blocking resp w = Ret false w.
Proof.
  intros H1 H2 H3. unfold detect_blocking. simpl.
  destruct (Z.eqb_spec (status_code resp) 403); [contradiction|].
  destruct (Z.eqb_spec (status_code resp) 429); [contradiction|].
  simpl. destruct (contains "captcha" (lower (text resp))) eqn:E;
    [|reflexivity].
  exfalso. apply H3. apply (@contains_lower "captcha" _ eq_refl). exact E.
Qed.

(** C5, as the code has it: an exception of [requests] raised on attempt [i]
    with [i < max_retries] is counted as a retry and the fetch goes on with
    attempt [i + 1]; before that it sleeps [delay * (i + 1)] when the
    exception is not a timeout, and does not sleep when it is one. *)
Theorem retry_after_request_error
    (env : Env) (url : string) (i : Z) (w : World) (e : exn) :
  net env (sent (host w)) url = Fails e ->
  isinstance_RequestException e = true ->
  i < max_retries (self w) ->
  let request :=
    [EGet url
       (float_of_int (timeout (self w)) * (1 + float_of_int i * 0.5))%float;
     ESleep (delay (self w))] in
  let reaction :=
    if isinstance_Timeout e
    then [ELog WARNING "Timeout"]
    else [ESleep (delay (self w) * float_of_int (i + 1))%float;
          ELog ERROR "Erreur requete"] in
  make_request env url i w =
  make_request env url (i + 1)
    (mkWorld
       (with_stats (fun st => incr_retries (incr_total_requests st)) (self w))
       (mkHost (disk_file (host w)) (S (sent (host w))) (written (host w))
          (reaction ++ request ++ trace (host w)))).
Proof.
  intros Hnet He Hi. cbv zeta. rewrite make_request_unfold.
  unfold attempt, on_timeout, on_request_error.
  destruct w as [[bu cf st dl mn mx to mr bk] [f n m tr]].
  cbn [self max_retries host sent] in Hnet, Hi. run.
  rewrite Hnet, (ltb_true _ _ Hi).
  destruct e; try discriminate He; reflexivity.
Qed.

Lemma retry_after_request_error_witness :
  exists w',
    make_request env_two_refusals "u" 0 (fresh env_two_refusals) =
    make_request env_two_refusals "u" 1 w'.
Proof.
  eexists.
  apply (retry_after_request_error env_two_refusals "u" 0
           (fresh env_two_refusals) ConnectionError).
  - reflexivity.
  - reflexivity.
  - vm_compute. reflexivity.
Defined.

(** C5, as stated, fails on timeouts: with two timeouts followed by a page,
    the three requests are each preceded by the ordinary sleep of [delay]
    seconds only; the sleeps of 1 * 1 and 1 * 2 seconds that the claim puts
    after the first and the second timeout are not there. *)
Lemma timeout_retry_without_backoff :
  let w := world_of (make_request env_two_timeouts "u" 0
                       (fresh env_two_timeouts)) in
  retries (stats (self w)) = 2 /\
  trace (host w) =
    [ELog DEBUG "Delai ajuste";
     EGet "u" 20; ESleep 1;
     ELog WARNING "Timeout";
     EGet "u" 15; ESleep 1;
     ELog WARNING "Timeout";
     EGet "u" 10; ESleep 1] /\
  slept w = [1; 1; 1]%float /\
  slept w <> [1; 1 * 1; 1; 1 * 2; 1]%float.
Proof.
  vm_compute. repeat split. intros H. discriminate H.
Qed.

(** C6, as the code has it: a response that is not classified as blocked is
    returned, with [successful_requests] incremented and the delay updated
    for a success, when its status is not a 4xx or a 5xx; when it is, the
    [HTTPError] of [raise_for_status] is handled like any other exception of
    [requests]: a retry after [delay * (i + 1)] seconds while
    [i < max_retries], and [None] with [failed_requests] incremented and the
    delay updated for a failure otherwise. *)
Theorem unblocked_response
    (env : Env) (url : string) (i : Z) (w : World) (resp : Response) :
  net env (sent (host w)) url = Responds resp ->
  status_code resp <> 403 -> status_code resp <> 429 ->
  ~ contains_ignoring_case "captcha" (text resp) ->
  let request :=
    [EGet url
       (float_of_int (timeout (self w)) * (1 + float_of_int i * 0.5))%float;
     ESleep (delay (self w))] in
  let after (s : ResilientScraper) (events : list Event) :=
    mkWorld s
      (mkHost (disk_file (host w)) (S (sent (host w))) (written (host w))
         (events ++ request ++ trace (host w))) in
  (~ 400 <= status_code resp < 600 ->
   make_request env url i w =
   Ret (Some resp)
     (after
        (with_delay (Py.max (min_delay (self w)) (delay (self w) * 0.9))%float
           (with_stats
              (fun st => incr_successful_requests (incr_total_requests st))
              (self w)))
        [ELog DEBUG "Delai ajuste"]))
  /\
  (400 <= status_code resp < 600 -> i < max_retries (self w) ->
   make_request env url i w =
   make_request env url (i + 1)
     (after
        (with_stats (fun st => incr_retries (incr_total_requests st)) (self w))
        [ESleep (delay (self w) * float_of_int (i + 1))%float;
         ELog ERROR "Erreur requete"]))
  /\
  (400 <= status_code resp < 600 -> max_retries (self w) <= i ->
   make_request env url i w =
   Ret None
     (after
        (with_delay (Py.min (max_delay (self w)) (delay (self w) * 1.5))%float
           (with_stats
              (fun st => incr_failed_requests (incr_total_requests st))
              (self w)))
        [ELog DEBUG "Delai ajuste"; ELog ERROR "Erreur requete"])).
Proof.
  intros Hnet H403 H429 Hcap. cbv zeta.
  assert (E : forall x, detect_blocking resp x = Ret false x)
    by (intros x; apply detect_blocking_clean; assumption).
  rewrite make_request_unfold.
  unfold attempt, on_timeout, on_request_error.
  destruct w as [[bu cf st dl mn mx to mr bk] [f n m tr]].
  cbn [self max_retries host sent] in Hnet. run. rewrite Hnet, E.
  split; [|split].
  - intros Hs.
    destruct (Z.leb_spec 400 (status_code resp));
      destruct (Z.ltb_spec (status_code resp) 600); try reflexivity; lia.
  - intros Hs Hi. cbn [self max_retries] in Hi.
    destruct (Z.leb_spec 400 (status_code resp));
      destruct (Z.ltb_spec (status_code resp) 600); try lia.
    cbn [andb negb]. rewrite (ltb_true _ _ Hi). reflexivity.
  - intros Hs Hi. cbn [self max_retries] in Hi.
    destruct (Z.leb_spec 400 (status_code resp));
      destruct (Z.ltb_spec (status_code resp) 600); try lia.
    cbn [andb negb]. rewrite (ltb_false _ _ Hi). reflexivity.
Qed.

Lemma unblocked_response_witness :
  exists w',
    make_request env_404_then_200 "u" 0 (fresh env_404_then_200) =
    make_request env_404_then_200 "u" 1 w'.
Proof.
  eexists.
  refine (proj1 (proj2
            (unblocked_response env_404_then_200 "u" 0
               (fresh env_404_then_200) (mkResponse 404 "Not Found")
               _ _ _ _)) _ _).
  - reflexivity.
  - discriminate.
  - discriminate.
  - intros H. apply (@contains_lower "captcha" _ eq_refl) in H.
    discriminate H.
  - cbn [status_code]. lia.
  - vm_compute. reflexivity.
Defined.

(** C6, as stated, fails on a 404 without captcha marker: the response is
    not returned; [raise_for_status] raises, the fetch counts a retry, sleeps
    the linear backoff and sends a second request, whose page it returns. *)
Lemma http_error_is_retried :
  let env := env_404_then_200 in
  exists w,
    make_request env "u" 0 (fresh env)
    = Ret (Some (mkResponse 200 "<html></html>")) w /\
    sent (host w) = 2%nat /\
    retries (stats (self w)) = 1 /\
    successful_requests (stats (self w)) = 1 /\
    trace (host w) =
      [ELog DEBUG "Delai ajuste";
       EGet "u" 15; ESleep 1;
       ESleep 1; ELog ERROR "Erreur requete";
       EGet "u" 10; ESleep 1].
Proof. eexists. vm_compute. repeat split. Qed.

(** C4, on the code: when the six attempts allowed by [max_retries = 5] are
    all answered 429, the fetch returns [None] and counts one failed
    request, but the delay is still the initial one: [adaptive_delay(False)]
    is not called on this path.  When the six attempts time out instead, the
    delay is raised to 1.5. *)
Theorem blocked_exhaustion_keeps_delay :
  (exists w,
      make_request env_always_429 "u" 0 (fresh env_always_429) = Ret None w /\
      sent (host w) = 6%nat /\
      blocked_detections (stats (self w)) = 6 /\
      failed_requests (stats (self w)) = 1 /\
      delay (self w) = delay (self (fresh env_always_429)) /\
      delay (self w) = 1%float)
  /\
  (exists w,
      make_request env_always_timeout "u" 0 (fresh env_always_timeout)
      = Ret None w /\
      sent (host w) = 6%nat /\
      failed_requests (stats (self w)) = 1 /\
      delay (self w) = 1.5%float).
Proof. split; eexists; vm_compute; repeat split. Qed.

(** C9, as the code has it: when the first request of a fetch on a freshly
    built scraper is answered 429 and the second 200 without captcha marker,
    the blocked attempt counts one detection and one retry and leaves the
    delay as it was; the second attempt returns the response and lowers the
    delay from 1.0 to 0.9. *)
Theorem blocked_then_served
    (env : Env) (base cf : string) (h : Host) (url : string)
    (r429 r200 : Response) :
  let w := world_of (__init__ env base cf h) in
  net env (sent h) url = Responds r429 -> status_code r429 = 429 ->
  net env (S (sent h)) url = Responds r200 -> status_code r200 = 200 ->
  ~ contains_ignoring_case "captcha" (text r200) ->
  max_retries (self w) = 5 /\
  exists w1 w2 : World,
    make_request env url 0 w = make_request env url 1 w1 /\
    self w1 =
      with_stats
        (fun st =>
           incr_retries (incr_blocked_detections (incr_total_requests st)))
        (self w) /\
    delay (self w1) = delay (self w) /\
    slept w1 =
      (slept w ++ [delay (self w); (delay (self w) * pow2 0)%float])%list /\
    make_request env url 1 w1 = Ret (Some r200) w2 /\
    blocked_detections (stats (self w2)) =
      blocked_detections (stats (self w)) + 1 /\
    retries (stats (self w2)) = retries (stats (self w)) + 1 /\
    successful_requests (stats (self w2)) =
      successful_requests (stats (self w)) + 1 /\
    delay (self w) = 1%float /\
    delay (self w2) = (1 * 0.9)%float /\
    (delay (self w2) <? delay (self w1))%float = true.
Proof.
  intros w H1 S1 H2 S2 Hcap.
  destruct (init_settings env base cf h)
    as (w0 & E & Hd & Hmin & Hmax & Hk & Ht).
  assert (Hs : sent (host w0) = sent h).
  { revert E. unfold __init__, load_checkpoint.
    destruct h as [f n m t]; destruct f as [| |b s]; simpl;
      intros E; injection E as <-; reflexivity. }
  subst w. rewrite E. cbn [world_of]. clear E.
  split; [exact Hk|].
  destruct w0 as [[bu cf0 st dl mn mx to mr bk] [f n m tr]].
  cbn [self host sent delay min_delay max_delay max_retries timeout] in *.
  subst dl mn mx mr to n.
  generalize dependent (sent h). intros k H1 H2.
  eexists. eexists.
  split.
  { rewrite make_request_unfold. unfold attempt. run.
    rewrite H1. unfold detect_blocking. rewrite S1.
    cbn [existsb Z.eqb Pos.eqb orb]. run. cbn [Z.ltb Z.compare Pos.compare
      Pos.compare_cont]. reflexivity. }
  split; [reflexivity|]. split; [reflexivity|].
  split.
  { unfold slept. cbn [sleeps host trace]. rewrite <- app_assoc. reflexivity. }
  split.
  { rewrite make_request_unfold. unfold attempt. run.
    rewrite H2.
    match goal with
    | |- context [detect_blocking r200 ?x] =>
        rewrite (detect_blocking_clean r200 x)
    end; [|rewrite S2; discriminate|rewrite S2; discriminate|exact Hcap].
    rewrite S2. cbn [Z.leb Z.ltb Z.compare Pos.compare Pos.compare_cont
                       andb negb].
    reflexivity. }
  cbn [self stats delay blocked_detections retries successful_requests
       incr_retries incr_blocked_detections incr_total_requests
       incr_successful_requests].
  repeat split.
Qed.

Lemma blocked_then_served_witness :
  max_retries (self (fresh env_429_then_200)) = 5.
Proof.
  refine (proj1
            (blocked_then_served env_429_then_200
               "http://books.toscrape.com" "checkpoint.json" clean_host "u"
               (mkResponse 429 "Too Many Requests")
               (mkResponse 200 "<html></html>") _ _ _ _ _)).
  - reflexivity.
  - reflexivity.
  - reflexivity.
  - reflexivity.
  - intros H. apply (@contains_lower "captcha" _ eq_refl) in H.
    discriminate H.
Defined.

(** C9, as stated, fails on the delay after the blocked attempt: in the
    scenario of the claim the second request is preceded by
    [time.sleep(self.delay)] of 1 second, the initial delay, after the
    one-off backoff of [1 * 2 ** 0] seconds; the delay has not been raised.
    The counters and the final delay are as the claim says. *)
Lemma blocked_attempt_keeps_delay :
  let env := env_429_then_200 in
  let w := world_of (make_request env "u" 0 (fresh env)) in
  delay (self (fresh env)) = 1%float /\
  trace (host w) =
    [ELog DEBUG "Delai ajuste";
     EGet "u" 15; ESleep 1;
     ESleep 1; ELog INFO "Attente avant retry";
     ELog WARNING "Blocage potentiel detecte";
     EGet "u" 10; ESleep 1] /\
  blocked_detections (stats (self w)) = 1 /\
  retries (stats (self w)) = 1 /\
  delay (self w) = (1 * 0.9)%float /\
  exists w1,
    make_request env "u" 0 (fresh env) = make_request env "u" 1 w1 /\
    sent (host w1) = 1%nat /\
    (delay (self (fresh env)) <? delay (self w1))%float = false.
Proof.
  cbv zeta. repeat split; try (vm_compute; reflexivity).
  eexists. split.
  - rewrite make_request_unfold.
    set (a := attempt env_429_then_200 "u" 0 (fresh env_429_then_200)).
    vm_compute in a. subst a. cbv iota. reflexivity.
  - split; reflexivity.
Qed.

(** ** Checkpoints *)

Section Checkpoint.

Variable env : Env.

Lemma save_checkpoint_spec (w : World) :
  let r := disk env (written (host w)) in
  let after (f : FileContent) (events : list Event) :=
    mkWorld (self w)
      (mkHost f (sent (host w)) (S (written (host w)))
         (events ++ EWriteCheckpoint r :: trace (host w))) in
  let failed (e : exn) (f : FileContent) : Result unit :=
    if isinstance_Exception e
    then Ret tt
           (after f
              [ELog ERROR "Erreur lors de la sauvegarde du checkpoint"])
    else Raise e (after f []) in
  save_checkpoint env w =
  match r with
  | WriteOk =>
      Ret tt
        (after (Json (Some (scraped_books (self w))) (Some (stats (self w))))
           [ELog DEBUG "Checkpoint sauvegarde"])
  | OpenRaises e => failed e (disk_file (host w))
  | DumpRaises e => failed e Unreadable
  end.
Proof.
  cbv zeta. unfold save_checkpoint, datetime_now, json_dump.
  destruct w as [s [f n m t]]. run.
  destruct (disk env m) as [|e|e]; [reflexivity| |];
    destruct (isinstance_Exception e); reflexivity.
Qed.

Lemma save_checkpoint_effect (w : World) :
  let w' := world_of (save_checkpoint env w) in
  self w' = self w /\
  written (host w') = S (written (host w)) /\
  sent (host w') = sent (host w) /\
  disk_file (host w') =
    match disk env (written (host w)) with
    | WriteOk => Json (Some (scraped_books (self w))) (Some (stats (self w)))
    | OpenRaises _ => disk_file (host w)
    | DumpRaises _ => Unreadable
    end.
Proof.
  cbv zeta. rewrite save_checkpoint_spec. cbv zeta.
  destruct (disk env (written (host w))) as [|e|e];
    [|destruct (isinstance_Exception e)..]; cbn; auto.
Qed.

End Checkpoint.

(** C10: when the write of the checkpoint fails with an exception of class
    [Exception] (as every I/O error is), [save_checkpoint] returns normally:
    the object is what it was, the error is logged, and whatever the caller
    does next is run. *)
Theorem save_checkpoint_never_raises (env : Env) (w : World) :
  (forall e : exn,
      disk env (written (host w)) = OpenRaises e \/
      disk env (written (host w)) = DumpRaises e ->
      isinstance_Exception e = true) ->
  exists w',
    save_checkpoint env w = Ret tt w' /\
    self w' = self w /\
    (disk env (written (host w)) <> WriteOk ->
     trace (host w') =
       ELog ERROR "Erreur lors de la sauvegarde du checkpoint"
       :: EWriteCheckpoint (disk env (written (host w)))
       :: trace (host w)) /\
    forall (A : Type) (next : M A), (save_checkpoint env ;; next) w = next w'.
Proof.
  intros H. unfold bind. rewrite save_checkpoint_spec. cbv zeta.
  destruct (disk env (written (host w))) as [|e|e] eqn:E.
  - eexists. split; [reflexivity|]. split; [reflexivity|].
    split; [intros N; contradiction|reflexivity].
  - rewrite (H e (or_introl eq_refl)).
    eexists. split; [reflexivity|]. repeat split.
  - rewrite (H e (or_intror eq_refl)).
    eexists. split; [reflexivity|]. repeat split.
Qed.

Lemma save_checkpoint_never_raises_witness :
  exists w',
    save_checkpoint env_disk_full (fresh env_disk_full) = Ret tt w' /\
    self w' = self (fresh env_disk_full).
Proof.
  destruct (save_checkpoint_never_raises env_disk_full (fresh env_disk_full))
    as (w' & E & S & _).
  - intros e [H|H]; vm_compute in H; [discriminate H|].
    injection H as <-. reflexivity.
  - exists w'. split; assumption.
Defined.

(** ** What the methods keep *)

Lemma preserves_ret {A : Type} (P : World -> Prop) (a : A) :
  preserves P (ret a).
Proof. intros w H. exact H. Qed.

Lemma preserves_raise {A : Type} (P : World -> Prop) (e : exn) :
  preserves P (@raise A e).
Proof. intros w H. exact H. Qed.

Lemma preserves_bind {A B : Type} (P : World -> Prop)
    (m : M A) (k : A -> M B) :
  preserves P m -> (forall a, preserves P (k a)) -> preserves P (bind m k).
Proof.
  intros Hm Hk w H. unfold bind. specialize (Hm w H).
  destruct (m w) as [a w'|e w']; [apply Hk|]; exact Hm.
Qed.

Lemma preserves_try_except {A : Type} (P : World -> Prop)
    (m : M A) (handler : exn -> M A) :
  preserves P m -> (forall e, preserves P (handler e)) ->
  preserves P (try_except m handler).
Proof.
  intros Hm Hh w H. unfold try_except. specialize (Hm w H).
  destruct (m w) as [a w'|e w']; [|apply Hh]; exact Hm.
Qed.

Lemma preserves_try_finally {A : Type} (P : World -> Prop)
    (m : M A) (cleanup : M unit) :
  preserves P m -> preserves P cleanup -> preserves P (try_finally m cleanup).
Proof.
  intros Hm Hc w H. unfold try_finally. specialize (Hm w H).
  destruct (m w) as [a w'|e w']; simpl in Hm; specialize (Hc w' Hm);
    destruct (cleanup w') as [u w''|e' w'']; exact Hc.
Qed.

Lemma try_finally_world {A : Type} (m : M A) (cleanup : M unit) (w : World) :
  world_of (try_finally m cleanup w) = world_of (cleanup (world_of (m w))).
Proof.
  unfold try_finally. destruct (m w) as [a w'|e w']; simpl;
    destruct (cleanup w'); reflexivity.
Qed.

Lemma stable_emit (P : World -> Prop) (e : Event) :
  stable P -> preserves P (emit e).
Proof. intros HP w. apply HP. reflexivity. Qed.

Lemma stable_log (P : World -> Prop) (l : LogLevel) (msg : string) :
  stable P -> preserves P (log l msg).
Proof. apply stable_emit. Qed.

Lemma stable_make_request (P : World -> Prop) (env : Env)
    (url : string) (r : Z) :
  stable P -> preserves P (make_request env url r).
Proof. intros HP w. apply HP. apply make_request_kept. Qed.

Lemma existsb_url (u : string) (l : list Book) :
  existsb (fun book => String.eqb (url book) u) l = false ->
  ~ In u (map url l).
Proof.
  induction l as [|b l IH]; simpl; [tauto|].
  rewrite orb_false_iff. intros [H1 H2] [H|H].
  - rewrite H, String.eqb_refl in H1. discriminate.
  - exact (IH H2 H).
Qed.

(** [scrape_book] changes nothing of what [make_request] keeps, or returns
    the book it has appended, whose key was not yet there. *)
Lemma scrape_book_effect (env : Env) (u : string) (w : World) :
  let res := scrape_book env u w in
  (kept (world_of res) = kept w /\
   forall b w', res <> Ret (Some b) w') \/
  exists (b : Book) (w' : World),
    res = Ret (Some b) w' /\
    url b = u /\
    ~ In u (keys w) /\
    scraped_books (self w') = scraped_books (self w) ++ [b] /\
    books_scraped (stats (self w')) = books_scraped (stats (self w)) + 1 /\
    disk_file (host w') = disk_file (host w) /\
    written (host w') = written (host w).
Proof.
  cbv zeta. remember (scrape_book env u w) as res eqn:R.
  unfold scrape_book, bind at 1, get_self in R.
  destruct (existsb _ _) eqn:Ex in R;
    [left; subst res; split; [reflexivity | discriminate]|].
  apply existsb_url in Ex.
  unfold bind at 1 in R.
  pose proof (make_request_kept env u 0 w) as K.
  destruct (make_request env u 0 w) as [[r|] w1|e w1]; cbn [world_of] in K;
    [|left; subst res; split; [exact K | discriminate]..].
  destruct (negb (ok r));
    [left; subst res; split; [exact K | discriminate]|].
  unfold try_except, extract_book, bind at 1 in R.
  destruct (soup_book env (text r)) as [fields|].
  - right. unfold datetime_now in R.
    destruct w1 as [[bu cf st dl mn mx to mr bk] [f n m tr]].
    revert R. run. intros R.
    eexists. eexists. split; [exact R|].
    unfold kept in K. cbn in K.
    injection K as K1 K2 K3 K4 K5 K6 K7 K8 K9 K10 K11.
    cbn. rewrite K7, K8, K10, K11. unfold keys. repeat split; auto.
  - left. subst res. cbn. split; [exact K | discriminate].
Qed.

Lemma scrape_book_quiet_books (env : Env) (u : string) (w : World) :
  In u (keys w) ->
  scrape_book env u w =
  Ret None
    (mkWorld (self w)
       (mkHost (disk_file (host w)) (sent (host w)) (written (host w))
          (ELog DEBUG "Livre deja scrape" :: trace (host w)))).
Proof.
  intros H. unfold scrape_book, bind at 1, get_self.
  destruct (existsb _ _) eqn:Ex; [reflexivity|].
  apply existsb_url in Ex. contradiction.
Qed.

(** ** The crawl *)

(** [print_stats] changes nothing but the log, however it ends. *)
Lemma print_stats_effect (env : Env) (w : World) :
  let w' := world_of (print_stats env w) in
  self w' = self w /\
  disk_file (host w') = disk_file (host w) /\
  sent (host w') = sent (host w) /\
  written (host w') = written (host w) /\
  (trace (host w') = trace (host w) \/
   trace (host w') = EPrintStats :: trace (host w)).
Proof.
  unfold print_stats, datetime_now, bind, get_self.
  destruct (seconds_between env _ _) as [elapsed|]; cbn; [|auto 6].
  destruct (_ && _); cbn; auto 6.
Qed.

Lemma stable_print_stats (env : Env) (P : World -> Prop) :
  stable P -> preserves P (print_stats env).
Proof.
  intros HP w H. apply (HP w); [|exact H].
  destruct (print_stats_effect env w) as (Hs & Hf & _ & Hw & _).
  unfold kept. rewrite Hs, Hf, Hw. reflexivity.
Qed.

Section Crawl.

Variable env : Env.

Lemma preserves_get_self (P : World -> Prop) : preserves P get_self.
Proof. intros w H. exact H. Qed.

Ltac pres :=
  repeat first
    [ assumption
    | match goal with
      | H : forall u, preserves _ (scrape_book _ u) |- _ => apply H
      end
    | apply preserves_ret
    | apply preserves_raise
    | apply preserves_get_self
    | apply stable_log; assumption
    | apply stable_emit; assumption
    | apply stable_print_stats; assumption
    | apply stable_make_request; assumption
    | apply preserves_bind; [|intros ?]
    | apply preserves_try_except; [|intros ?]
    | apply preserves_try_finally
    | match goal with
      | |- preserves _ (if ?c then _ else _) => destruct c
      | |- preserves _ (match ?x with _ => _ end) => destruct x
      end ].

Lemma iteration_at_page (P : World -> Prop) (page : Z) :
  stable P -> preserves P (iteration env (AtPage page)).
Proof. intros HP. unfold iteration. pres. Qed.

Lemma iteration_preserves (P : World -> Prop) (l : Loop) :
  stable P ->
  (forall u, preserves P (scrape_book env u)) ->
  preserves P (save_checkpoint env) ->
  preserves P (iteration env l).
Proof.
  intros HP Hb Hs. destruct l as [page|page [|[href|] rest]];
    [apply iteration_at_page; exact HP|unfold iteration..];
    pres.
Qed.

Lemma leave_preserves (P : World -> Prop) (loop : M unit) :
  stable P ->
  preserves P (save_checkpoint env) ->
  preserves P loop ->
  preserves P (leave env loop).
Proof.
  intros HP Hs Hl. unfold leave, save_results. pres.
Qed.

Lemma finish_world (r : Result unit) : snd (finish r) = world_of r.
Proof. destruct r; reflexivity. Qed.

Lemma step_preserves (P : World -> Prop) :
  stable P ->
  (forall u, preserves P (scrape_book env u)) ->
  preserves P (save_checkpoint env) ->
  forall c, P (snd c) -> P (snd (scrape_catalogue_step env c)).
Proof.
  intros HP Hb Hs [st w] H. unfold scrape_catalogue_step. cbn [fst snd] in *.
  destruct st as [l| |e]; try exact H.
  pose proof (iteration_preserves P l HP Hb Hs w H) as H1.
  destruct (iteration env l w) as [[l'|] w'|e w']; cbn [world_of] in H1.
  - exact H1.
  - rewrite finish_world. apply leave_preserves; auto. apply preserves_ret.
  - rewrite finish_world. apply leave_preserves; auto. apply preserves_raise.
Qed.

Lemma run_preserves (P : World -> Prop) :
  stable P ->
  (forall u, preserves P (scrape_book env u)) ->
  preserves P (save_checkpoint env) ->
  forall n w, P w -> P (snd (scrape_catalogue_run env n w)).
Proof.
  intros HP Hb Hs n w H. induction n as [|n IH].
  - cbn. apply (stable_log P INFO _ HP w H).
  - cbn [scrape_catalogue_run]. apply step_preserves; assumption.
Qed.

(** What [__init__] loads. *)
Lemma init_effect (base cf : string) (h : Host) :
  exists w0,
    __init__ env base cf h = Ret tt w0 /\
    scraped_books (self w0) = persisted (disk_file h) /\
    disk_file (host w0) = disk_file h /\
    written (host w0) = written h /\
    sent (host w0) = sent h.
Proof.
  unfold __init__, load_checkpoint.
  destruct h as [f n m t]; destruct f as [| |[b|] s]; simpl;
    eexists; (split; [reflexivity|]); simpl; auto.
Qed.

(** *** Keys stay distinct *)

Lemma distinct_keys_stable : stable distinct_keys.
Proof.
  intros w w' K. unfold kept in K. injection K as _ _ _ _ _ _ K7 _ _ K10 _.
  unfold distinct_keys, keys. rewrite K7, K10. auto.
Qed.

Lemma distinct_keys_scrape_book (u : string) :
  preserves distinct_keys (scrape_book env u).
Proof.
  intros w H.
  destruct (scrape_book_effect env u w)
    as [[K _] | (b & w' & E & Hu & Hn & Hb & _ & Hf & _)].
  - exact (distinct_keys_stable _ _ K H).
  - rewrite E. cbn [world_of]. destruct H as [H1 H2].
    unfold distinct_keys, keys in *. rewrite Hb, Hf. split; [|exact H2].
    rewrite map_app. cbn [map]. rewrite Hu.
    apply NoDup_app; [exact H1 | constructor; [intros []|constructor] |].
    intros x Hx [<-|[]]. exact (Hn Hx).
Qed.

Lemma distinct_keys_save_checkpoint :
  preserves distinct_keys (save_checkpoint env).
Proof.
  intros w [H1 H2].
  destruct (save_checkpoint_effect env w) as (Hs & _ & _ & Hf).
  unfold distinct_keys, keys in *. rewrite Hs, Hf. split; [exact H1|].
  destruct (disk env (written (host w))); cbn [persisted];
    [exact H1 | exact H2 | constructor].
Qed.

Lemma distinct_keys_init (base cf : string) (h : Host) :
  NoDup (map url (persisted (disk_file h))) ->
  distinct_keys (world_of (__init__ env base cf h)).
Proof.
  intros H. destruct (init_effect base cf h) as (w0 & E & Hb & Hf & _).
  rewrite E. cbn [world_of]. unfold distinct_keys, keys.
  rewrite Hb, Hf. auto.
Qed.

Lemma reachable_distinct_keys (w : World) :
  reachable env w -> distinct_keys w.
Proof.
  induction 1 as [base cf|w base cf _ IH|w u r _ IH|w u _ IH|w _ IH|w n _ IH].
  - apply distinct_keys_init. constructor.
  - apply distinct_keys_init. apply IH.
  - exact (stable_make_request _ env u r distinct_keys_stable w IH).
  - exact (distinct_keys_scrape_book u w IH).
  - exact (distinct_keys_save_checkpoint w IH).
  - apply run_preserves;
      auto using distinct_keys_stable, distinct_keys_scrape_book,
        distinct_keys_save_checkpoint.
Qed.

End Crawl.

(** C7: in every world the scraper can reach, restarts from its own
    checkpoint included, no key occurs twice among the books; submitting a
    key that is present returns [None] and leaves the object and the
    checkpoint file as they were; and a book that [scrape_book] has just
    added is skipped when its key is submitted again, so that the key still
    occurs exactly once. *)
Theorem no_duplicate_keys (env : Env) (w : World) :
  reachable env w ->
  NoDup (keys w) /\
  (forall u, (count_occ string_dec (keys w) u <= 1)%nat) /\
  (forall u, In u (keys w) ->
     exists w', scrape_book env u w = Ret None w' /\
                self w' = self w /\
                disk_file (host w') = disk_file (host w)) /\
  (forall u b w1,
     scrape_book env u w = Ret (Some b) w1 ->
     url b = u /\
     scraped_books (self w1) = scraped_books (self w) ++ [b] /\
     exists w2, scrape_book env u w1 = Ret None w2 /\
                self w2 = self w1 /\
                count_occ string_dec (keys w2) u = 1%nat).
Proof.
  intros R. pose proof (reachable_distinct_keys env w R) as [D _].
  split; [exact D|]. split; [apply NoDup_count_occ; exact D|]. split.
  - intros u Hu. rewrite (scrape_book_quiet_books env u w Hu).
    eexists. split; [reflexivity|]. split; reflexivity.
  - intros u b w1 E.
    destruct (scrape_book_effect env u w)
      as [[_ N] | (b' & w' & E' & Hu & Hn & Hb & _)];
      [exfalso; exact (N _ _ E)|].
    rewrite E in E'. injection E' as <- <-.
    split; [exact Hu|]. split; [exact Hb|].
    assert (Hin : In u (keys w1)).
    { unfold keys. rewrite Hb, map_app. apply in_or_app. right.
      left. exact Hu. }
    rewrite (scrape_book_quiet_books env u w1 Hin).
    eexists. split; [reflexivity|]. split; [reflexivity|].
    pose proof (reachable_distinct_keys env _ (reach_scrape_book env w u R))
      as [D1 _].
    rewrite E in D1. cbn [world_of] in D1.
    apply (NoDup_count_occ' string_dec) in Hin; [exact Hin | exact D1].
Qed.

Lemma no_duplicate_keys_witness :
  let env := env_429_then_200 in
  NoDup (keys (world_of (scrape_book env "u" (fresh env)))).
Proof.
  exact (proj1
           (no_duplicate_keys env_429_then_200 _
              (reach_scrape_book env_429_then_200 _ "u"
                 (reach_start env_429_then_200
                    "http://books.toscrape.com" "checkpoint.json")))).
Defined.

(** *** The checkpoint policy *)

Section Policy.

Variable env : Env.

Lemma iteration_in_page (page : Z) (href : string)
    (rest : list (option string)) (w : World) :
  iteration env (InPage page (Some href :: rest)) w =
  match
    scrape_book env
      (base_url (self w) ++ "/catalogue/" ++ replace "../../../" "" href)%string
      w
  with
  | Raise e w1 => Raise e w1
  | Ret _ w1 =>
      if books_scraped (stats (self w1)) mod 10 =? 0
      then match save_checkpoint env w1 with
           | Ret _ w2 =>
               match print_stats env w2 with
               | Ret _ w3 => Ret (Some (InPage page rest)) w3
               | Raise e w3 => Raise e w3
               end
           | Raise e w2 => Raise e w2
           end
      else Ret (Some (InPage page rest)) w1
  end.
Proof.
  unfold iteration, bind at 1, ret at 1, bind at 1, get_self at 1, bind at 1.
  destruct (scrape_book env _ w) as [a w1|e w1]; [|reflexivity].
  unfold bind at 1, get_self, bind at 1.
  destruct (_ =? 0); [|reflexivity].
  unfold bind at 1.
  destruct (save_checkpoint env w1) as [u w2|e w2]; [|reflexivity].
  destruct (print_stats env w2); reflexivity.
Qed.

Lemma finish_not_running (r : Result unit) (l : Loop) (w : World) :
  finish r <> (Running l, w).
Proof. destruct r; discriminate. Qed.

Lemma save_checkpoint_ok (w : World) :
  disk env (written (host w)) = WriteOk ->
  exists w2,
    save_checkpoint env w = Ret tt w2 /\
    checkpointed w2 /\
    self w2 = self w /\
    written (host w2) = S (written (host w)).
Proof.
  intros H. rewrite save_checkpoint_spec. cbv zeta. rewrite H.
  eexists. split; [reflexivity|]. unfold checkpointed. cbn. auto.
Qed.

Lemma written_stable (n : nat) :
  stable (fun x => (n <= written (host x))%nat).
Proof.
  intros w w' K. unfold kept in K. injection K as _ _ _ _ _ _ _ _ _ _ K11.
  rewrite K11. auto.
Qed.

Lemma written_save_checkpoint (n : nat) :
  preserves (fun x => (n <= written (host x))%nat) (save_checkpoint env).
Proof.
  intros w H. destruct (save_checkpoint_effect env w) as (_ & Hw & _).
  rewrite Hw. lia.
Qed.

Lemma written_scrape_book (n : nat) (u : string) :
  preserves (fun x => (n <= written (host x))%nat) (scrape_book env u).
Proof.
  intros w H.
  destruct (scrape_book_effect env u w)
    as [[K _] | (b & w' & E & _ & _ & _ & _ & _ & Hw)].
  - exact (written_stable n _ _ K H).
  - rewrite E. cbn [world_of]. rewrite Hw. exact H.
Qed.

(** Leaving the loop ends with the [save_checkpoint] of the [finally]
    clause: it is the last write attempted, and nothing changes the object
    after it. *)
Lemma leave_last_save (loop : M unit) (w : World) :
  preserves (fun x => (written (host w) <= written (host x))%nat) loop ->
  let w' := world_of (leave env loop w) in
  exists w3,
    (written (host w) <= written (host w3))%nat /\
    written (host w') = S (written (host w3)) /\
    self w' = self w3 /\
    (disk env (written (host w3)) = WriteOk -> checkpointed w').
Proof.
  intros Hl. cbv zeta. unfold leave. rewrite try_finally_world.
  match goal with
  | |- context [world_of (try_except loop ?h w)] =>
      set (w3 := world_of (try_except loop h w));
      assert (H3 : (written (host w) <= written (host w3))%nat)
  end.
  { subst w3.
    apply (preserves_try_except
             (fun x => (written (host w) <= written (host x))%nat));
      [exact Hl| |lia].
    intros e. pose proof (written_stable (written (host w))) as St.
    pose proof (written_save_checkpoint (written (host w))) as Sv.
    repeat first
      [ assumption
      | apply preserves_raise
      | apply stable_log; assumption
      | apply stable_print_stats; assumption
      | apply preserves_bind; [|intros ?]
      | match goal with
        | |- preserves _ (if ?c then _ else _) => destruct c
        end ]. }
  exists w3. split; [exact H3|]. clearbody w3.
  unfold bind. rewrite save_checkpoint_spec. cbv zeta.
  unfold checkpointed.
  destruct (disk env (written (host w3))) as [|e|e];
    [|destruct (isinstance_Exception e)..]; cbn;
    repeat split; auto; discriminate.
Qed.

Lemma covered_stable : stable covered.
Proof.
  intros w w' K. unfold kept in K. injection K as _ _ _ _ _ _ K7 K8 _ K10 _.
  unfold covered. rewrite K7, K8, K10. auto.
Qed.

Lemma checkpointed_covered (w : World) : checkpointed w -> covered w.
Proof.
  unfold checkpointed, covered. intros H. exists []. rewrite H.
  cbn [persisted List.length]. rewrite app_nil_r. split; [reflexivity|].
  pose proof (Z.mod_pos_bound (books_scraped (stats (self w))) 10). lia.
Qed.

Lemma checkpointed_print_stats (w : World) :
  checkpointed w -> checkpointed (world_of (print_stats env w)).
Proof.
  unfold checkpointed.
  destruct (print_stats_effect env w) as (-> & -> & _). auto.
Qed.

Hypothesis disk_ok : forall k, disk env k = WriteOk.

Lemma leave_covered (loop : M unit) (w : World) :
  preserves (fun x => (written (host w) <= written (host x))%nat) loop ->
  covered (world_of (leave env loop w)).
Proof.
  intros Hl. destruct (leave_last_save loop w Hl) as (w3 & _ & _ & _ & H).
  apply checkpointed_covered. apply H. apply disk_ok.
Qed.

Lemma step_covered (c : Status * World) :
  covered (snd c) -> covered (snd (scrape_catalogue_step env c)).
Proof.
  destruct c as [st w]. unfold scrape_catalogue_step. cbn [fst snd].
  intros H. destruct st as [l| |e]; try exact H.
  assert (Lret : covered (world_of (leave env (ret tt) w)))
    by (apply leave_covered; apply preserves_ret).
  assert (L : forall (m : M unit) w1,
             (m = ret tt \/ exists e, m = raise e) ->
             covered (snd (finish (leave env m w1)))).
  { intros m w1 Hm. rewrite finish_world. apply leave_covered.
    destruct Hm as [->|[e ->]]; [apply preserves_ret|apply preserves_raise]. }
  destruct l as [page|page [|[href|] rest]].
  - pose proof (iteration_at_page env covered page covered_stable w H) as H1.
    destruct (iteration env (AtPage page) w) as [[l'|] w1|e w1];
      cbn [world_of] in H1; [exact H1|apply L; eauto..].
  - exact H.
  - rewrite iteration_in_page.
    destruct (scrape_book_effect env
                (base_url (self w) ++ "/catalogue/" ++
                 replace "../../../" "" href)%string w)
      as [[K N] | (b & w' & E & _ & _ & Hb & Hc & Hf & _)].
    + destruct (scrape_book env _ w) as [a w1|e w1]; cbn [world_of] in K;
        [|apply L; eauto].
      pose proof (covered_stable _ _ K H) as H1.
      destruct (_ =? 0); [|exact H1].
      destruct (save_checkpoint_ok w1 (disk_ok _)) as (w2 & -> & C2 & _).
      apply checkpointed_print_stats in C2.
      destruct (print_stats env w2) as [u w3|e w3]; cbn [world_of] in C2;
        [cbn [snd]; apply checkpointed_covered, C2|apply L; eauto].
    + rewrite E.
      destruct (Z.eqb_spec (books_scraped (stats (self w')) mod 10) 0)
        as [Z0|NZ].
      * destruct (save_checkpoint_ok w' (disk_ok _)) as (w2 & -> & C2 & _).
        apply checkpointed_print_stats in C2.
        destruct (print_stats env w2) as [u w3|e w3]; cbn [world_of] in C2;
          [cbn [snd]; apply checkpointed_covered, C2|apply L; eauto].
      * cbn [snd]. destruct H as (extra & He & Hl).
        exists (extra ++ [b]). rewrite Hb, Hf, He, app_assoc.
        split; [reflexivity|].
        rewrite length_app. cbn [List.length]. rewrite Hc in *.
        revert Hl NZ. generalize (books_scraped (stats (self w))).
        intros z Hl NZ. Z.div_mod_to_equations. lia.
  - cbn [iteration bind raise]. apply L. eauto.
Qed.

Lemma run_covered (n : nat) (w : World) :
  covered w -> covered (snd (scrape_catalogue_run env n w)).
Proof.
  intros H. induction n as [|n IH].
  - cbn. apply (stable_log covered INFO _ covered_stable w H).
  - cbn [scrape_catalogue_run]. apply step_covered. exact IH.
Qed.

End Policy.

Lemma scrape_book_written (env : Env) (u : string) (w : World) :
  written (host (world_of (scrape_book env u w))) = written (host w).
Proof.
  destruct (scrape_book_effect env u w)
    as [[K _] | (b & w' & E & _ & _ & _ & _ & _ & Hw)].
  - unfold kept in K. injection K as _ _ _ _ _ _ _ _ _ _ K11. exact K11.
  - rewrite E. exact Hw.
Qed.

Lemma init_covered (env : Env) (base cf : string) (h : Host) :
  covered (world_of (__init__ env base cf h)).
Proof.
  destruct (init_effect env base cf h) as (w0 & E & Hb & Hf & _).
  rewrite E. cbn [world_of]. exists []. rewrite Hb, Hf, app_nil_r.
  split; [reflexivity|]. cbn [List.length].
  pose proof (Z.mod_pos_bound (books_scraped (stats (self w0))) 10). lia.
Qed.

(** C8, as the code has it: in the loop over the books of a page, an
    iteration that leaves [books_scraped] on a multiple of 10 has called
    [save_checkpoint] once, and the file then holds the whole progress if
    the write succeeded; every way out of the crawl loop (the two [break],
    [KeyboardInterrupt], any other exception) runs [save_checkpoint] as its
    last write, which stores the whole progress if it succeeds; and as long
    as the writes succeed, between two iterations of a crawl the books in
    memory are those of the checkpoint file followed by at most 9 others. *)
Theorem checkpoint_policy (env : Env) :
  (forall (w : World) (page : Z) (b : option string)
          (rest : list (option string)) (l' : Loop) (w' : World),
      scrape_catalogue_step env (Running (InPage page (b :: rest)), w)
      = (Running l', w') ->
      books_scraped (stats (self w')) mod 10 = 0 ->
      written (host w') = S (written (host w)) /\
      (disk env (written (host w)) = WriteOk -> checkpointed w'))
  /\
  (forall (l : Loop) (w : World) (st : Status) (w' : World),
      scrape_catalogue_step env (Running l, w) = (st, w') ->
      (st = Returned \/ exists e, st = Raised e) ->
      (written (host w) < written (host w'))%nat /\
      (disk env (pred (written (host w'))) = WriteOk -> checkpointed w'))
  /\
  ((forall k, disk env k = WriteOk) ->
   forall (base cf : string) (h : Host) (n : nat),
     let w :=
       snd (scrape_catalogue_run env n (world_of (__init__ env base cf h))) in
     exists extra : list Book,
       scraped_books (self w) = persisted (disk_file (host w)) ++ extra /\
       (List.length extra <= 9)%nat).
Proof.
  split; [|split].
  - intros w page b rest l' w' H Hmod.
    unfold scrape_catalogue_step in H. cbn [fst snd] in H.
    destruct b as [href|];
      [|cbn [iteration bind raise] in H;
        exfalso; exact (finish_not_running _ _ _ H)].
    rewrite iteration_in_page in H.
    pose proof (scrape_book_written env
                  (base_url (self w) ++ "/catalogue/" ++
                   replace "../../../" "" href)%string w) as Hw.
    destruct (scrape_book env _ w) as [a w1|e w1]; cbn [world_of] in Hw;
      [|exfalso; exact (finish_not_running _ _ _ H)].
    destruct (Z.eqb_spec (books_scraped (stats (self w1)) mod 10) 0)
      as [Z0|NZ].
    + pose proof (save_checkpoint_effect env w1) as (Hs & Hwr & _ & Hf).
      destruct (save_checkpoint env w1) as [u w2|e w2]; cbn [world_of] in *;
        [|exfalso; exact (finish_not_running _ _ _ H)].
      pose proof (print_stats_effect env w2) as (Ps & Pf & _ & Pw & _).
      destruct (print_stats env w2) as [u' w3|e w3]; cbn [world_of] in *;
        [|exfalso; exact (finish_not_running _ _ _ H)].
      injection H as _ <-.
      split; [congruence|].
      intros Ok. rewrite Hw, Ok in Hf. unfold checkpointed.
      rewrite Ps, Pf, Hs. exact Hf.
    + injection H as _ <-. contradiction.
  - intros l w st w' H Hst.
    unfold scrape_catalogue_step in H. cbn [fst snd] in H.
    assert (H1 : (written (host w)
                  <= written (host (world_of (iteration env l w))))%nat).
    { apply (iteration_preserves env
               (fun x => (written (host w) <= written (host x))%nat));
        auto using written_stable, written_save_checkpoint.
      intros u. apply written_scrape_book. }
    assert (L : forall (m : M unit) w1,
               (written (host w) <= written (host w1))%nat ->
               (m = ret tt \/ exists e, m = raise e) ->
               finish (leave env m w1) = (st, w') ->
               (written (host w) < written (host w'))%nat /\
               (disk env (pred (written (host w'))) = WriteOk ->
                checkpointed w')).
    { intros m w1 Hle Hm F. apply (f_equal snd) in F.
      rewrite finish_world in F. cbn [snd] in F. subst w'.
      destruct (leave_last_save env m w1) as (w3 & H3 & Hw3 & _ & Hc).
      - destruct Hm as [->|[e ->]];
          [apply preserves_ret|apply preserves_raise].
      - rewrite Hw3. cbn [pred]. split; [lia|exact Hc]. }
    destruct (iteration env l w) as [[l2|] w1|e w1]; cbn [world_of] in H1.
    + injection H as <- _. destruct Hst as [?|[e ?]]; discriminate.
    + apply (L (ret tt) w1); auto.
    + apply (L (raise e) w1); eauto.
  - intros Ok base cf h n. cbv zeta.
    destruct (run_covered env Ok n _ (init_covered env base cf h))
      as (extra & He & Hl).
    exists extra. split; [exact He|].
    match type of Hl with
    | _ <= ?z mod 10 => pose proof (Z.mod_pos_bound z 10)
    end. lia.
Qed.

(** The crawl of twelve books saves when the tenth is scraped and again when
    it leaves the loop on the empty second page. *)
Lemma checkpoint_policy_witness :
  let run n := snd (scrape_catalogue_run env_crawl n (fresh env_crawl)) in
  (written (host (run 11%nat)) = S (written (host (run 10%nat))) /\
   checkpointed (run 11%nat)) /\
  ((written (host (run 14%nat)) < written (host (run 15%nat)))%nat /\
   checkpointed (run 15%nat)) /\
  (exists extra : list Book,
      scraped_books (self (run 10%nat)) =
        persisted (disk_file (host (run 10%nat))) ++ extra /\
      (List.length extra <= 9)%nat) /\
  (let w := fresh env_interrupted in
   let c := scrape_catalogue_run env_interrupted 1 w in
   fst c = Raised KeyboardInterrupt /\
   (written (host w) < written (host (snd c)))%nat /\
   checkpointed (snd c)).
Proof.
  intros run.
  destruct (checkpoint_policy env_crawl) as (A & B & C).
  split; [|split; [|split]]; cycle 3.
  { cbv zeta. split; [vm_compute; reflexivity|].
    destruct (proj1 (proj2 (checkpoint_policy env_interrupted))
                (AtPage 1)
                (snd (scrape_catalogue_run env_interrupted 0
                        (fresh env_interrupted)))
                (Raised KeyboardInterrupt)
                (snd (scrape_catalogue_run env_interrupted 1
                        (fresh env_interrupted)))) as [H1 H2].
    - vm_compute. reflexivity.
    - right. eexists. reflexivity.
    - split; [exact H1|]. apply H2. reflexivity. }
  - destruct (A (run 10%nat) 1 (Some "../../../book-10/index.html")
                [Some "../../../book-11/index.html";
                 Some "../../../book-12/index.html"]
                (InPage 1 [Some "../../../book-11/index.html";
                           Some "../../../book-12/index.html"])
                (run 11%nat)) as [H1 H2].
    + vm_compute. reflexivity.
    + vm_compute. reflexivity.
    + split; [exact H1|]. apply H2. reflexivity.
  - destruct (B (AtPage 2) (run 14%nat) Returned (run 15%nat)) as [H1 H2].
    + vm_compute. reflexivity.
    + left. reflexivity.
    + split; [exact H1|]. apply H2. reflexivity.
  - apply (C (fun k => eq_refl) "http://books.toscrape.com" "checkpoint.json"
             clean_host 10%nat).
Defined.

(** C8, as stated, fails on the bound of 9 lost items: a write that fails
    is swallowed by [save_checkpoint] and the crawl goes on.  With
    twenty-five books on the page and a disk that fails at the second write,
    after [open] has truncated the file, the crawl is still running with 25
    books in memory while the checkpoint file holds none of them: a restart
    at this point loads no book. *)
Lemma failed_write_loses_more_than_nine :
  let env := env_failed_write in
  let c := scrape_catalogue_run env 26 (fresh env) in
  let w := snd c in
  fst c = Running (InPage 1 []) /\
  List.length (scraped_books (self w)) = 25%nat /\
  written (host w) = 2%nat /\
  disk_file (host w) = Unreadable /\
  scraped_books
    (self (world_of (__init__ env "http://books.toscrape.com"
                       "checkpoint.json" (host w)))) = [] /\
  ~ (exists extra : list Book,
       scraped_books (self w) = persisted (disk_file (host w)) ++ extra /\
       (List.length extra <= 9)%nat).
Proof.
  cbv zeta.
  assert (F : disk_file
                (host (snd (scrape_catalogue_run env_failed_write 26
                              (fresh env_failed_write)))) = Unreadable)
    by (vm_compute; reflexivity).
  assert (L : List.length
                (scraped_books
                   (self (snd (scrape_catalogue_run env_failed_write 26
                                 (fresh env_failed_write))))) = 25%nat)
    by (vm_compute; reflexivity).
  split; [vm_compute; reflexivity|]. split; [exact L|].
  split; [vm_compute; reflexivity|]. split; [exact F|].
  split; [vm_compute; reflexivity|].
  intros (extra & E & B). rewrite F in E. cbn [persisted app] in E.
  rewrite E in L. lia.
Qed.

(** * Further properties of the scraper *)

(** ** Starting and restarting *)

(** X1: building a scraper does not fail when the checkpoint file is
    missing, is not readable as a JSON object, or is a JSON object whose
    ['books'], if present, is a list of books and whose ['stats'], if
    present, is a dictionary of counters.  The settings are the defaults;
    without a file the scraper starts empty and silently; with an unreadable
    file it starts empty and logs an error; with such a JSON object it takes
    the books and the counters the object has, an empty list and fresh
    counters standing for a missing key.  The host is left as it was, but
    for the log record. *)
Theorem init_never_fatal (env : Env) (base cf : string) (h : Host) :
  exists w : World,
    __init__ env base cf h = Ret tt w /\
    (base_url (self w), checkpoint_file (self w), delay (self w),
     min_delay (self w), max_delay (self w), timeout (self w),
     max_retries (self w))
    = (base, cf, 1%float, 0.5%float, 10%float, 10, 5) /\
    (disk_file (host w), sent (host w), written (host w))
    = (disk_file h, sent h, written h) /\
    let zero := mkStats 0 0 0 0 0 (now env (List.length (trace h))) 0 in
    match disk_file h with
    | Absent =>
        scraped_books (self w) = [] /\ stats (self w) = zero /\
        trace (host w) = trace h
    | Unreadable =>
        scraped_books (self w) = [] /\ stats (self w) = zero /\
        trace (host w) =
          ELog ERROR "Erreur lors du chargement du checkpoint" :: trace h
    | Json b s =>
        scraped_books (self w) = match b with Some l => l | None => [] end /\
        stats (self w) = match s with Some st => st | None => zero end /\
        trace (host w) = ELog INFO "Checkpoint charge" :: trace h
    end.
Proof.
  unfold __init__, load_checkpoint.
  destruct h as [f n m t]; destruct f as [| |b s]; simpl;
    eexists; (split; [reflexivity|]); simpl; auto.
Qed.

Lemma init_unreadable (env : Env) (base cf : string) (h : Host) :
  disk_file h = Unreadable ->
  let w := world_of (__init__ env base cf h) in
  scraped_books (self w) = [] /\
  stats (self w) = mkStats 0 0 0 0 0 (now env (List.length (trace h))) 0.
Proof.
  destruct h as [f n m t]. cbn [disk_file]. intros ->.
  unfold __init__, load_checkpoint. cbn. auto.
Qed.

(** X2: a checkpoint that is written is read back as it was: a scraper
    built after a successful [save_checkpoint] has the books and the
    counters of the scraper that saved; its delay is the initial one again,
    the delay not being part of the checkpoint. *)
Theorem checkpoint_round_trip (env : Env) (w : World) (base cf : string) :
  disk env (written (host w)) = WriteOk ->
  let saved := world_of (save_checkpoint env w) in
  let restarted := world_of (__init__ env base cf (host saved)) in
  scraped_books (self restarted) = scraped_books (self w) /\
  stats (self restarted) = stats (self w) /\
  delay (self restarted) = 1%float.
Proof.
  intros Ok. cbv zeta. rewrite save_checkpoint_spec. cbv zeta. rewrite Ok.
  cbn [world_of]. unfold __init__, load_checkpoint. cbn. auto.
Qed.

Lemma checkpoint_round_trip_witness :
  let w := world_of (scrape_book env_crawl "u" (fresh env_crawl)) in
  let restarted :=
    world_of (__init__ env_crawl "http://books.toscrape.com" "checkpoint.json"
                (host (world_of (save_checkpoint env_crawl w)))) in
  scraped_books (self restarted) = scraped_books (self w) /\
  stats (self restarted) = stats (self w) /\
  delay (self restarted) = 1%float.
Proof.
  apply (checkpoint_round_trip env_crawl). reflexivity.
Defined.

(** X3: a save that fails is not harmless for the file.  When [open]
    raises, the file is what it was and a restart loads the earlier
    checkpoint; when [json.dump] raises, the file has been truncated by
    [open] and a restart starts with no book and fresh counters, whatever
    the earlier checkpoint held.  In both cases the scraper that saved goes
    on untouched. *)
Theorem failed_save_and_restart
    (env : Env) (w : World) (base cf : string) (e : exn) :
  isinstance_Exception e = true ->
  let saved := world_of (save_checkpoint env w) in
  let restarted := world_of (__init__ env base cf (host saved)) in
  (disk env (written (host w)) = OpenRaises e ->
   self saved = self w /\
   disk_file (host saved) = disk_file (host w) /\
   scraped_books (self restarted) = persisted (disk_file (host w)))
  /\
  (disk env (written (host w)) = DumpRaises e ->
   self saved = self w /\
   disk_file (host saved) = Unreadable /\
   scraped_books (self restarted) = [] /\
   books_scraped (stats (self restarted)) = 0 /\
   total_requests (stats (self restarted)) = 0).
Proof.
  intros He. cbv zeta.
  destruct (save_checkpoint_effect env w) as (Hs & _ & _ & Hf).
  split; intros Hd; rewrite Hd in Hf.
  - split; [exact Hs|]. split; [exact Hf|].
    destruct (init_effect env base cf (host (world_of (save_checkpoint env w))))
      as (w2 & E & Hb & _).
    rewrite E. cbn [world_of]. rewrite Hb, Hf. reflexivity.
  - split; [exact Hs|]. split; [exact Hf|].
    destruct (init_unreadable env base cf
                (host (world_of (save_checkpoint env w))) Hf)
      as (E1 & E2).
    rewrite E1, E2. cbn. auto.
Qed.

Lemma failed_save_and_restart_witness :
  let w := world_of (scrape_book env_disk_full "u" (fresh env_disk_full)) in
  let saved := world_of (save_checkpoint env_disk_full w) in
  let restarted :=
    world_of (__init__ env_disk_full "http://books.toscrape.com"
                "checkpoint.json" (host saved)) in
  scraped_books (self w) <> [] /\
  self saved = self w /\
  scraped_books (self restarted) = [].
Proof.
  cbv zeta. split; [vm_compute; discriminate|].
  destruct (proj2
              (failed_save_and_restart env_disk_full
                 (world_of (scrape_book env_disk_full "u"
                              (fresh env_disk_full)))
                 "http://books.toscrape.com" "checkpoint.json" OSError
                 eq_refl) eq_refl)
    as (H1 & _ & H3 & _).
  split; [exact H1 | exact H3].
Defined.

(** ** The rate controller on any delay *)

Lemma ltb_leb (a b : float) :
  (a <? b)%float = true -> (a <=? b)%float = true.
Proof.
  rewrite ltb_spec, leb_spec. unfold SFltb, SFleb.
  destruct (SFcompare _ _) as [[| |]|]; congruence.
Qed.

(** X4: whatever the delay was before, a number below the floor, an
    infinity or a NaN, [adaptive_delay(True)] leaves a delay that is not
    below [min_delay] and [adaptive_delay(False)] one that is not above
    [max_delay], as long as the bound itself is a number. *)
Theorem adaptive_delay_clamps (w : World) :
  ((min_delay (self w) <=? min_delay (self w))%float = true ->
   (min_delay (self w)
      <=? delay (self (world_of (adaptive_delay true w))))%float = true)
  /\
  ((max_delay (self w) <=? max_delay (self w))%float = true ->
   (delay (self (world_of (adaptive_delay false w)))
      <=? max_delay (self w))%float = true).
Proof.
  destruct w as [[bu cf st dl mn mx to mr bk] h]. cbn.
  unfold Py.max, Py.min. split; intros H.
  - destruct (mn <? dl * 0.9)%float eqn:E; [apply ltb_leb; exact E|exact H].
  - destruct (dl * 1.5 <? mx)%float eqn:E; [apply ltb_leb; exact E|exact H].
Qed.

Lemma adaptive_delay_clamps_witness :
  let w := world_of (set_delay nan (fresh env_crawl)) in
  (min_delay (self w)
     <=? delay (self (world_of (adaptive_delay true w))))%float = true /\
  (delay (self (world_of (adaptive_delay false w)))
     <=? max_delay (self w))%float = true.
Proof.
  cbv zeta.
  destruct (adaptive_delay_clamps (world_of (set_delay nan (fresh env_crawl))))
    as [H1 H2].
  split; [apply H1 | apply H2]; reflexivity.
Defined.

(** ** The outcome of a fetch *)

Section Outcome.

Variable env : Env.

Lemma detect_blocking_blocks (resp : Response) (w : World) :
  exists msg : string,
    detect_blocking resp w =
    if blocks resp
    then Ret true
           (world_of ((set_stats incr_blocked_detections ;;
                       log WARNING msg) w))
    else Ret false w.
Proof.
  unfold detect_blocking, blocks.
  destruct (existsb _ _); [eexists; reflexivity|].
  cbn [orb]. destruct (contains _ _);
    [eexists | exists EmptyString]; reflexivity.
Qed.

(** What one attempt does to the counters, and what its answer was. *)
Lemma attempt_outcome (url : string) (r : Z) (w : World) :
  let answer := net env (sent (host w)) url in
  let st := stats (self w) in
  let seen : Z :=
    match answer with
    | Responds resp => if blocks resp then 1 else 0
    | Fails _ => 0
    end in
  match attempt env url r w with
  | Again w' =>
      fruitless answer = true /\
      retries (stats (self w')) = retries st + 1 /\
      successful_requests (stats (self w')) = successful_requests st /\
      failed_requests (stats (self w')) = failed_requests st /\
      blocked_detections (stats (self w')) = blocked_detections st + seen
  | Done (Ret (Some resp) w') =>
      answer = Responds resp /\ blocks resp = false /\ ok resp = true /\
      retries (stats (self w')) = retries st /\
      successful_requests (stats (self w')) = successful_requests st + 1 /\
      failed_requests (stats (self w')) = failed_requests st /\
      blocked_detections (stats (self w')) = blocked_detections st
  | Done (Ret None w') =>
      max_retries (self w) <= r /\ fruitless answer = true /\
      retries (stats (self w')) = retries st /\
      successful_requests (stats (self w')) = successful_requests st /\
      failed_requests (stats (self w')) = failed_requests st + 1 /\
      blocked_detections (stats (self w')) = blocked_detections st + seen
  | Done (Raise e w') =>
      answer = Fails e /\ isinstance_RequestException e = false /\
      retries (stats (self w')) = retries st /\
      successful_requests (stats (self w')) = successful_requests st /\
      failed_requests (stats (self w')) = failed_requests st /\
      blocked_detections (stats (self w')) = blocked_detections st
  end.
Proof.
  cbv zeta. unfold attempt, on_timeout, on_request_error.
  destruct w as [[bu cf st dl mn mx to mr bk] [f n m tr]]. run.
  destruct (net env n url) as [resp|e]; cbn [fruitless].
  - match goal with
    | |- context [detect_blocking resp ?x] =>
        destruct (detect_blocking_blocks resp x) as (msg & ->)
    end.
    destruct (blocks resp) eqn:B; run; cbn [orb].
    + destruct (Z.ltb_spec r mr); cbn; repeat split; auto; lia.
    + unfold ok. destruct (_ && _) eqn:O; cbn [negb].
      * destruct (Z.ltb_spec r mr); cbn; repeat split; auto; lia.
      * cbn. repeat split; auto; lia.
  - destruct (isinstance_Timeout e) eqn:T.
    + assert (R : isinstance_RequestException e = true)
        by (destruct e; try discriminate T; reflexivity).
      destruct (Z.ltb_spec r mr); cbn; repeat split; auto; lia.
    + destruct (isinstance_RequestException e) eqn:R.
      * destruct (Z.ltb_spec r mr); cbn; repeat split; auto; lia.
      * cbn. repeat split; auto.
Qed.

End Outcome.

Section Fetches.

Variable env : Env.

(** The whole of a call: how many requests, which answers, which counters. *)
Lemma make_request_at_outcome (d : nat) :
  forall url r w,
    (Z.to_nat (max_retries (self w) - r) < d)%nat ->
    let res := make_request_at env d url r w in
    let w' := world_of res in
    let a := Z.of_nat (sent (host w')) - Z.of_nat (sent (host w)) in
    let st := stats (self w) in
    let st' := stats (self w') in
    (sent (host w) < sent (host w'))%nat /\
    retries st' = retries st + a - 1 /\
    blocked_detections st <= blocked_detections st'
      <= blocked_detections st + a /\
    (forall n, (sent (host w) <= n)%nat -> (S n < sent (host w'))%nat ->
               fruitless (net env n url) = true) /\
    match res with
    | Ret (Some resp) _ =>
        net env (pred (sent (host w'))) url = Responds resp /\
        blocks resp = false /\ ok resp = true /\
        successful_requests st' = successful_requests st + 1 /\
        failed_requests st' = failed_requests st
    | Ret None _ =>
        fruitless (net env (pred (sent (host w'))) url) = true /\
        a = Z.max 1 (max_retries (self w) - r + 1) /\
        successful_requests st' = successful_requests st /\
        failed_requests st' = failed_requests st + 1
    | Raise e _ =>
        net env (pred (sent (host w'))) url = Fails e /\
        isinstance_RequestException e = false /\
        successful_requests st' = successful_requests st /\
        failed_requests st' = failed_requests st
    end.
Proof.
  induction d as [|d IH]; intros url r w Hd; [lia|].
  cbv zeta. rewrite make_request_at_step.
  pose proof (attempt_spec env url r w) as A.
  pose proof (attempt_outcome env url r w) as O. cbv zeta in O.
  destruct (attempt env url r w) as [res|w1].
  - destruct A as (_ & S1 & _).
    assert (Hseen : 0 <= match net env (sent (host w)) url with
                         | Responds resp => if blocks resp then 1 else 0
                         | Fails _ => 0
                         end <= 1)
      by (destruct (net env (sent (host w)) url) as [resp|e];
          [destruct (blocks resp)|]; lia).
    destruct res as [[resp|] w'|e w']; cbn [world_of] in *; rewrite S1;
      cbn [pred].
    + destruct O as (O1 & O2 & O3 & O4 & O5 & O6 & O7).
      repeat split; try lia; auto; intros n H1 H2; lia.
    + destruct O as (O1 & O2 & O4 & O5 & O6 & O7).
      repeat split; try lia; auto; intros n H1 H2; lia.
    + destruct O as (O1 & O2 & O4 & O5 & O6 & O7).
      repeat split; try lia; auto; intros n H1 H2; lia.
  - destruct A as (Hr & K & S1 & _).
    pose proof (kept_max_retries _ _ K) as Hk.
    destruct O as (O1 & O2 & O3 & O4 & O5).
    assert (Hseen : 0 <= match net env (sent (host w)) url with
                         | Responds resp => if blocks resp then 1 else 0
                         | Fails _ => 0
                         end <= 1)
      by (destruct (net env (sent (host w)) url) as [resp|e];
          [destruct (blocks resp)|]; lia).
    specialize (IH url (r + 1) w1). cbv zeta in IH.
    destruct IH as (I1 & I2 & I3 & I4 & I5); [lia|].
    rewrite Hk, S1, O2, O3, O4, O5 in *.
    assert (Hn : forall n, (sent (host w) <= n)%nat ->
               (S n < sent (host (world_of
                        (make_request_at env d url (r + 1) w1))))%nat ->
               fruitless (net env n url) = true).
    { intros n H1 H2.
      destruct (Nat.eq_dec n (sent (host w))) as [->|N]; [exact O1|].
      apply I4; lia. }
    destruct (make_request_at env d url (r + 1) w1) as [[resp|] w'|e w'];
      cbn [world_of] in *.
    + destruct I5 as (J1 & J2 & J3 & J4 & J5).
      repeat split; try lia; auto.
    + destruct I5 as (J1 & J2 & J4 & J5).
      repeat split; try lia; auto.
    + destruct I5 as (J1 & J2 & J4 & J5).
      repeat split; try lia; auto.
Qed.

End Fetches.



(** X7: when no request can succeed, every answer from now on being an
    exception of [requests], a blocked response or a 4xx or 5xx, a fetch
    started on a scraper with the settings of the constructor and with a
    retry count [r] from 0 to [max_retries] sends exactly
    [max_retries - r + 1] requests and returns [None], with one failure and
    [max_retries - r] retries counted and no success. *)
Theorem fruitless_fetch (env : Env) (url : string) (r : Z) (w : World) :
  as_built w ->
  (forall n, (sent (host w) <= n)%nat -> fruitless (net env n url) = true) ->
  0 <= r <= max_retries (self w) ->
  exists w',
    make_request env url r w = Ret None w' /\
    Z.of_nat (sent (host w')) - Z.of_nat (sent (host w))
    = max_retries (self w) - r + 1 /\
    failed_requests (stats (self w'))
    = failed_requests (stats (self w)) + 1 /\
    retries (stats (self w'))
    = retries (stats (self w)) + (max_retries (self w) - r) /\
    successful_requests (stats (self w'))
    = successful_requests (stats (self w)).
Proof.
  intros _ Hall Hr. unfold make_request.
  destruct (make_request_at_outcome env
              (S (Z.to_nat (max_retries (self w) - r))) url r w)
    as (S1 & R1 & _ & _ & M); [lia|].
  destruct (make_request_at env _ url r w) as [[resp|] w'|e w'];
    cbn [world_of] in *.
  - destruct M as (M1 & M2 & M3 & _). exfalso.
    specialize (Hall (pred (sent (host w')))). rewrite M1 in Hall.
    cbn [fruitless] in Hall. rewrite M2, M3 in Hall.
    discriminate Hall. lia.
  - destruct M as (_ & M2 & M3 & M4). exists w'.
    repeat split; try lia.
  - destruct M as (M1 & M2 & _). exfalso.
    specialize (Hall (pred (sent (host w')))). rewrite M1 in Hall.
    cbn [fruitless] in Hall. rewrite M2 in Hall.
    discriminate Hall. lia.
Qed.

Lemma fruitless_fetch_witness :
  exists w',
    make_request env_always_429 "u" 2 (fresh env_always_429) = Ret None w' /\
    Z.of_nat (sent (host w')) = 4.
Proof.
  destruct (fruitless_fetch env_always_429 "u" 2 (fresh env_always_429))
    as (w' & E & S & _).
  - unfold as_built. vm_compute. auto.
  - intros n _. destruct n; reflexivity.
  - vm_compute. split; discriminate.
  - exists w'. split; [exact E|].
    change (sent (host (fresh env_always_429))) with 0%nat in S.
    change (max_retries (self (fresh env_always_429))) with 5 in S.
    lia.
Defined.

(** X8: a blocked response on attempt [i] with [i < max_retries] is counted
    as a detection and as a retry; the fetch sleeps [delay * 2 ** i], the
    delay itself being left as it is, and goes on with attempt [i + 1]. *)
Theorem retry_after_block
    (env : Env) (url : string) (i : Z) (w : World) (resp : Response) :
  net env (sent (host w)) url = Responds resp ->
  blocks resp = true ->
  i < max_retries (self w) ->
  exists msg : string,
    make_request env url i w =
    make_request env url (i + 1)
      (mkWorld
         (with_stats
            (fun st =>
               incr_retries (incr_blocked_detections (incr_total_requests st)))
            (self w))
         (mkHost (disk_file (host w)) (S (sent (host w))) (written (host w))
            ([ESleep (delay (self w) * pow2 i)%float;
              ELog INFO "Attente avant retry";
              ELog WARNING msg;
              EGet url
                (float_of_int (timeout (self w))
                 * (1 + float_of_int i * 0.5))%float;
              ESleep (delay (self w))]
             ++ trace (host w)))).
Proof.
  intros Hnet Hb Hi.
  destruct w as [[bu cf st dl mn mx to mr bk] [f n m tr]].
  cbn [self max_retries host sent] in Hnet, Hi.
  rewrite make_request_unfold. unfold attempt. run. rewrite Hnet.
  match goal with
  | |- context [detect_blocking resp ?x] =>
      destruct (detect_blocking_blocks resp x) as (msg & ->)
  end.
  rewrite Hb. run. rewrite (ltb_true _ _ Hi).
  exists msg. reflexivity.
Qed.

Lemma retry_after_block_witness :
  exists (msg : string) (w' : World),
    make_request env_always_429 "u" 3 (fresh env_always_429) =
    make_request env_always_429 "u" 4 w' /\
    hd_error (trace (host w')) = Some (ESleep 8).
Proof.
  destruct (retry_after_block env_always_429 "u" 3 (fresh env_always_429)
              (mkResponse 429 "Too Many Requests"))
    as (msg & E).
  - reflexivity.
  - reflexivity.
  - vm_compute. reflexivity.
  - exists msg. eexists. split; [exact E|]. reflexivity.
Defined.

(** ** No request without a sleep *)

Section Politeness.

Variable env : Env.

Let P (w : World) : Prop := polite (trace (host w)) = true.

Lemma polite_host {A : Type} (m : M A) :
  (forall w, host (world_of (m w)) = host w) -> preserves P m.
Proof. intros H w Hw. unfold P. rewrite H. exact Hw. Qed.

Lemma polite_emit (e : Event) :
  match e with EGet _ _ => False | _ => True end -> preserves P (emit e).
Proof. intros He w Hw. unfold P. destruct e; try contradiction; exact Hw. Qed.

Lemma polite_log (l : LogLevel) (msg : string) : preserves P (log l msg).
Proof. apply polite_emit. exact I. Qed.

Lemma polite_attempt (url : string) (r : Z) (w : World) :
  P w ->
  match attempt env url r w with
  | Done res => P (world_of res)
  | Again w' => P w'
  end.
Proof.
  unfold P, attempt, on_timeout, on_request_error.
  destruct w as [[bu cf st dl mn mx to mr bk] [f n m tr]]. run. intros Hw.
  destruct (net env n url) as [resp|e].
  - match goal with
    | |- context [detect_blocking resp ?x] =>
        destruct (detect_blocking_blocks resp x) as (msg & ->)
    end.
    destruct (blocks resp); run.
    + destruct (r <? mr); exact Hw.
    + destruct (_ && _); cbn [negb]; [destruct (r <? mr)|]; exact Hw.
  - destruct (isinstance_Timeout e); [destruct (r <? mr); exact Hw|].
    destruct (isinstance_RequestException e);
      [destruct (r <? mr)|]; exact Hw.
Qed.

Lemma polite_make_request_at (d : nat) :
  forall url r, preserves P (make_request_at env d url r).
Proof.
  induction d as [|d IH]; intros url r w Hw; [exact Hw|].
  rewrite make_request_at_step.
  pose proof (polite_attempt url r w Hw) as A.
  destruct (attempt env url r w) as [res|w1]; [exact A|].
  apply IH. exact A.
Qed.

Lemma polite_make_request (url : string) (r : Z) :
  preserves P (make_request env url r).
Proof. intros w. apply polite_make_request_at. Qed.

Ltac pol :=
  repeat first
    [ assumption
    | match goal with
      | H : forall u, preserves _ (scrape_book _ u) |- _ => apply H
      end
    | apply preserves_ret
    | apply preserves_raise
    | apply preserves_get_self
    | apply polite_log
    | apply polite_make_request
    | apply polite_emit; exact I
    | apply polite_host; intros ?; reflexivity
    | apply preserves_bind; [|intros ?]
    | apply preserves_try_except; [|intros ?]
    | apply preserves_try_finally
    | match goal with
      | |- preserves _ (if ?c then _ else _) => destruct c
      | |- preserves _ (match ?x with _ => _ end) => destruct x
      end ].

Lemma polite_scrape_book (u : string) : preserves P (scrape_book env u).
Proof. unfold scrape_book, extract_book. pol. Qed.

Lemma polite_save_checkpoint : preserves P (save_checkpoint env).
Proof.
  intros w Hw. unfold P. rewrite save_checkpoint_spec. cbv zeta.
  destruct (disk env (written (host w))) as [|e|e];
    [|destruct (isinstance_Exception e)..]; exact Hw.
Qed.

Lemma polite_iteration (l : Loop) : preserves P (iteration env l).
Proof.
  pose proof polite_save_checkpoint as Hs.
  pose proof polite_scrape_book as Hb.
  destruct l as [page|page [|[href|] rest]];
    unfold iteration, print_stats; pol.
Qed.

Lemma polite_leave (loop : M unit) :
  preserves P loop -> preserves P (leave env loop).
Proof.
  intros Hl. pose proof polite_save_checkpoint as Hs.
  unfold leave, print_stats, save_results. pol.
Qed.

Lemma polite_run (n : nat) (w : World) :
  P w -> P (snd (scrape_catalogue_run env n w)).
Proof.
  intros Hw. induction n as [|n IH]; [exact Hw|].
  cbn [scrape_catalogue_run]. unfold scrape_catalogue_step.
  destruct (scrape_catalogue_run env n w) as [st w1]. cbn [fst snd] in *.
  destruct st as [l| |e]; try exact IH.
  pose proof (polite_iteration l w1 IH) as H1.
  destruct (iteration env l w1) as [[l'|] w2|e w2]; cbn [world_of] in H1.
  - exact H1.
  - rewrite finish_world. apply polite_leave; [apply preserves_ret|exact H1].
  - rewrite finish_world. apply polite_leave; [apply preserves_raise|exact H1].
Qed.

Lemma polite_init (base cf : string) (h : Host) :
  polite (trace h) = true -> P (world_of (__init__ env base cf h)).
Proof.
  unfold P, __init__, load_checkpoint.
  destruct h as [f n m t]; destruct f as [| |b s]; cbn; auto.
Qed.

Lemma polite_reachable (w : World) : reachable env w -> P w.
Proof.
  induction 1 as [base cf|w base cf _ IH|w u r _ IH|w u _ IH|w _ IH|w n _ IH].
  - apply polite_init. reflexivity.
  - apply polite_init. exact IH.
  - apply polite_make_request. exact IH.
  - apply polite_scrape_book. exact IH.
  - apply polite_save_checkpoint. exact IH.
  - apply polite_run. exact IH.
Qed.

End Politeness.

(** X9: the scraper never sends a request without having slept just
    before: in every world it can reach, through fetches, book scrapes,
    saves, crawls and restarts, each request of the trace comes right after
    a [time.sleep], be it the first attempt of a fetch or a retry. *)
Theorem requests_follow_sleeps (env : Env) (w : World) :
  reachable env w -> polite (trace (host w)) = true.
Proof. apply polite_reachable. Qed.

Lemma requests_follow_sleeps_witness :
  let w := snd (scrape_catalogue_run env_crawl 15 (fresh env_crawl)) in
  sent (host w) = 14%nat /\ polite (trace (host w)) = true.
Proof.
  split; [vm_compute; reflexivity|].
  apply (requests_follow_sleeps env_crawl).
  apply reach_scrape_catalogue.
  apply (reach_start env_crawl "http://books.toscrape.com" "checkpoint.json").
Defined.

(** ** The books and their count *)

Section Books.

Variable env : Env.

Lemma consistent_stable : stable consistent.
Proof.
  intros w w' K. unfold kept in K. injection K as _ _ _ _ _ _ K7 K8 _ K10 _.
  unfold consistent, counted. rewrite K7, K8, K10. auto.
Qed.

Lemma consistent_scrape_book (u : string) :
  preserves consistent (scrape_book env u).
Proof.
  intros w H.
  destruct (scrape_book_effect env u w)
    as [[K _] | (b & w' & E & _ & _ & Hb & Hc & Hf & _)].
  - exact (consistent_stable _ _ K H).
  - rewrite E. cbn [world_of]. destruct H as [H1 H2].
    unfold consistent, counted in *. rewrite Hb, Hc, Hf, H1, length_app.
    cbn [List.length]. split; [lia|exact H2].
Qed.

Lemma consistent_save_checkpoint : preserves consistent (save_checkpoint env).
Proof.
  intros w [H1 H2].
  destruct (save_checkpoint_effect env w) as (Hs & _ & _ & Hf).
  unfold consistent. rewrite Hs, Hf. split; [exact H1|].
  destruct (disk env (written (host w))); [|exact H2|exact I].
  do 2 eexists. repeat split. exact H1.
Qed.

Lemma consistent_init (base cf : string) (h : Host) :
  match disk_file h with
  | Json b s => exists l st, b = Some l /\ s = Some st /\ counted l st
  | _ => True
  end ->
  consistent (world_of (__init__ env base cf h)).
Proof.
  unfold consistent, counted, __init__, load_checkpoint.
  destruct h as [f n m t]; destruct f as [| |b s]; cbn; auto.
  intros (l & st & -> & -> & H). split; [exact H|].
  exists l, st. auto.
Qed.

Lemma consistent_reachable (w : World) : reachable env w -> consistent w.
Proof.
  induction 1 as [base cf|w base cf _ IH|w u r _ IH|w u _ IH|w _ IH|w n _ IH].
  - apply consistent_init. exact I.
  - apply consistent_init. apply IH.
  - exact (stable_make_request _ env u r consistent_stable w IH).
  - exact (consistent_scrape_book u w IH).
  - exact (consistent_save_checkpoint w IH).
  - apply run_preserves;
      auto using consistent_stable, consistent_scrape_book,
        consistent_save_checkpoint.
Qed.

Lemma extends_stable (w0 : World) : stable (extends w0).
Proof.
  intros w w' K. unfold kept in K. injection K as _ _ _ _ _ _ K7 K8 _ _ _.
  unfold extends. rewrite K7, K8. auto.
Qed.

Lemma extends_scrape_book (w0 : World) (u : string) :
  preserves (extends w0) (scrape_book env u).
Proof.
  intros w H.
  destruct (scrape_book_effect env u w)
    as [[K _] | (b & w' & E & _ & _ & Hb & Hc & _)].
  - exact (extends_stable w0 _ _ K H).
  - rewrite E. cbn [world_of]. destruct H as (extra & H1 & H2).
    exists (extra ++ [b]). rewrite Hb, Hc, H1, H2, length_app, app_assoc.
    cbn [List.length]. split; [reflexivity|lia].
Qed.

Lemma extends_save_checkpoint (w0 : World) :
  preserves (extends w0) (save_checkpoint env).
Proof.
  intros w H. destruct (save_checkpoint_effect env w) as (Hs & _).
  unfold extends. rewrite Hs. exact H.
Qed.

Lemma extends_run (n : nat) (w : World) :
  extends w (snd (scrape_catalogue_run env n w)).
Proof.
  apply run_preserves;
    auto using extends_stable, extends_scrape_book, extends_save_checkpoint.
  exists []. rewrite app_nil_r. cbn. split; [reflexivity|lia].
Qed.

End Books.

(** X10: [books_scraped] is the number of books.  In every world the
    scraper can reach from a first start, restarts from its own checkpoint
    included, the counter equals the length of [scraped_books]. *)
Theorem books_scraped_counts_books (env : Env) (w : World) :
  reachable env w ->
  books_scraped (stats (self w))
  = Z.of_nat (List.length (scraped_books (self w))).
Proof. intros R. exact (proj1 (consistent_reachable env w R)). Qed.

Lemma books_scraped_counts_books_witness :
  let w := snd (scrape_catalogue_run env_crawl 15 (fresh env_crawl)) in
  books_scraped (stats (self w)) = 12 /\
  books_scraped (stats (self w))
  = Z.of_nat (List.length (scraped_books (self w))).
Proof.
  split; [vm_compute; reflexivity|].
  apply (books_scraped_counts_books env_crawl).
  apply reach_scrape_catalogue.
  apply (reach_start env_crawl "http://books.toscrape.com" "checkpoint.json").
Defined.

(** X11: a crawl only ever appends.  After any number of iterations, from
    any scraper, the books are those it started with, in the same order,
    followed by the new ones, and [books_scraped] has grown by the number of
    new ones: a failed request, a page that does not parse or a failed save
    never drop or reorder a book. *)
Theorem crawl_only_appends (env : Env) (n : nat) (w : World) :
  let w' := snd (scrape_catalogue_run env n w) in
  exists extra : list Book,
    scraped_books (self w') = scraped_books (self w) ++ extra /\
    books_scraped (stats (self w'))
    = books_scraped (stats (self w)) + Z.of_nat (List.length extra).
Proof. exact (extends_run env n w). Qed.

(** ** The crawl, page by page *)

Section Pages.

Variable env : Env.







Hypothesis disk_quiet : disk_never_interrupts env.

Lemma save_checkpoint_returns (w : World) :
  exists w2,
    save_checkpoint env w = Ret tt w2 /\
    self w2 = self w /\
    sent (host w2) = sent (host w) /\
    written (host w2) = S (written (host w)) /\
    slept w2 = slept w.
Proof.
  rewrite save_checkpoint_spec. cbv zeta. unfold slept.
  pose proof (disk_quiet (written (host w))) as Q.
  destruct (disk env (written (host w))) as [|e|e].
  - eexists. split; [reflexivity|]. cbn. auto.
  - rewrite (Q e (or_introl eq_refl)).
    eexists. split; [reflexivity|]. cbn. auto.
  - rewrite (Q e (or_intror eq_refl)).
    eexists. split; [reflexivity|]. cbn. auto.
Qed.

(** The [finally] clause: one save, then the results file. *)
Lemma finally_returns (w : World) :
  exists w',
    (save_checkpoint env ;; save_results) w = Ret tt w' /\
    self w' = self w /\
    written (host w') = S (written (host w)) /\
    hd_error (trace (host w')) = Some ESaveResults.
Proof.
  unfold bind.
  destruct (save_checkpoint_returns w) as (w2 & -> & H1 & _ & H3 & _).
  eexists. split; [reflexivity|]. cbn. auto.
Qed.

Lemma leave_returns (w : World) :
  exists w',
    leave env (ret tt) w = Ret tt w' /\
    self w' = self w /\
    written (host w') = S (written (host w)) /\
    hd_error (trace (host w')) = Some ESaveResults.
Proof.
  unfold leave, try_finally, try_except, ret.
  destruct (finally_returns w) as (w' & -> & H).
  exists w'. split; [reflexivity | exact H].
Qed.

Lemma leave_raises (e : exn) (w : World) :
  exists e' w',
    leave env (raise e) w = Raise e' w' /\
    self w' = self w /\
    written (host w') = S (S (written (host w))) /\
    hd_error (trace (host w')) = Some ESaveResults /\
    (e' = e \/
     e = KeyboardInterrupt /\
     exists x x', self x = self w /\ print_stats env x = Raise e' x').
Proof.
  unfold leave, try_finally, try_except, raise.
  assert (H : forall (m : M unit) (e' : exn) x,
             (exists x', m x = Raise e' x' /\ self x' = self x /\
                         written (host x') = S (written (host x))) ->
             exists w',
               match m x with
               | Ret a w' =>
                   match (save_checkpoint env ;; save_results) w' with
                   | Ret _ w'' => Ret a w''
                   | Raise e0 w'' => Raise e0 w''
                   end
               | Raise e0 w' =>
                   match (save_checkpoint env ;; save_results) w' with
                   | Ret _ w'' => Raise e0 w''
                   | Raise e1 w'' => Raise e1 w''
                   end
               end = Raise e' w' /\
               self w' = self x /\
               written (host w') = S (S (written (host x))) /\
               hd_error (trace (host w')) = Some ESaveResults).
  { intros m e' x (x' & -> & Hs & Hw).
    destruct (finally_returns x') as (w' & -> & H1 & H2 & H3).
    exists w'. split; [reflexivity|]. rewrite H1, H2, Hs, Hw. auto. }
  assert (Hexc : forall e0 : exn,
             exists x',
               (log ERROR "Erreur critique" ;; save_checkpoint env ;;
                @raise unit e0) w = Raise e0 x' /\
               self x' = self w /\
               written (host x') = S (written (host w))).
  { intros e0. unfold bind, log, emit, raise.
    match goal with
    | |- context [save_checkpoint env ?x] =>
        destruct (save_checkpoint_returns x) as (w2 & -> & H1 & _ & H3 & _)
    end.
    eexists. split; [reflexivity|]. cbn in *. auto. }
  assert (Hcase : e = KeyboardInterrupt \/
                  isinstance_KeyboardInterrupt e = false /\
                  isinstance_Exception e = true)
    by (destruct e; auto).
  destruct Hcase as [->|[K1 K2]];
    [cbn [isinstance_KeyboardInterrupt]
    |rewrite K1, K2;
     destruct (H (log ERROR "Erreur critique" ;; save_checkpoint env ;;
                  @raise unit e) e w (Hexc e)) as (w' & E & R1 & R2 & R3);
     exists e, w'; split; [exact E|]; auto].
  assert (Hki : exists e' x',
             (log INFO "Interruption detectee, sauvegarde en cours" ;;
              save_checkpoint env ;; print_stats env ;;
              @raise unit KeyboardInterrupt) w = Raise e' x' /\
             self x' = self w /\
             written (host x') = S (written (host w)) /\
             (e' = KeyboardInterrupt \/
              exists x x'', self x = self w /\
                            print_stats env x = Raise e' x'')).
  { unfold bind at 1, log, emit. unfold bind at 1.
    match goal with
    | |- context [save_checkpoint env ?x] =>
        destruct (save_checkpoint_returns x) as (w2 & -> & H1 & _ & H3 & _)
    end.
    cbn [self host written] in H1, H3. unfold bind, raise.
    pose proof (print_stats_effect env w2) as (Ps & _ & _ & Pw & _).
    destruct (print_stats env w2) as [u w3|e3 w3] eqn:P; cbn [world_of] in *.
    - exists KeyboardInterrupt, w3. repeat split; auto; congruence.
    - exists e3, w3. repeat split; try congruence.
      right. exists w2, w3. split; [exact H1 | exact P]. }
  destruct Hki as (e' & x' & E & Hs & Hw & Hor).
  destruct (H _ e' w (ex_intro _ x' (conj E (conj Hs Hw)))) as (w' & E' & R).
  exists e', w'. split; [exact E'|]. destruct R as (R1 & R2 & R3).
  repeat split; auto.
  destruct Hor as [->|Hx]; [left; reflexivity | right; auto].
Qed.

End Pages.


(** X13: how [scrape_catalogue] is left.  When the disk raises nothing but
    [Exception]s: after a [break] the call returns normally, having saved
    the checkpoint once; after an exception it raises, having saved the
    checkpoint twice (in the handler and in [finally]); in both cases the
    scraper is not changed on the way out and the results file is written
    last.  The exception raised is the one that ended the loop, with one
    exception to this: after a [KeyboardInterrupt], when the [print_stats]
    of the handler raises, its exception is raised instead. *)
Theorem crawl_exits (env : Env) (l : Loop) (w : World) :
  disk_never_interrupts env ->
  match iteration env l w with
  | Ret (Some l') w1 =>
      scrape_catalogue_step env (Running l, w) = (Running l', w1)
  | Ret None w1 =>
      exists w',
        scrape_catalogue_step env (Running l, w) = (Returned, w') /\
        self w' = self w1 /\
        written (host w') = S (written (host w1)) /\
        hd_error (trace (host w')) = Some ESaveResults
  | Raise e w1 =>
      exists e' w',
        scrape_catalogue_step env (Running l, w) = (Raised e', w') /\
        self w' = self w1 /\
        written (host w') = S (S (written (host w1))) /\
        hd_error (trace (host w')) = Some ESaveResults /\
        (e' = e \/
         e = KeyboardInterrupt /\
         exists x x', self x = self w1 /\ print_stats env x = Raise e' x')
  end.
Proof.
  intros Hd. unfold scrape_catalogue_step. cbn [fst snd].
  destruct (iteration env l w) as [[l'|] w1|e w1]; [reflexivity| |].
  - destruct (leave_returns env Hd w1) as (w' & -> & H).
    exists w'. split; [reflexivity | exact H].
  - destruct (leave_raises env Hd e w1) as (e' & w' & -> & H).
    exists e', w'. split; [reflexivity | exact H].
Qed.

(** X14: what [main] lets out.  Whenever the crawl ends, no exception of
    the crawl leaves [main]: a [KeyboardInterrupt] and any other exception
    raised by [scrape_catalogue] or by the first [print_stats] are logged
    and dropped.  The last thing done is the [print_stats] of [finally], on
    the scraper as the crawl left it: [main] returns normally when it
    returns, and raises what it raises. *)
Theorem main_ends_with_report
    (env : Env) (n : nat) (h : Host) (crawl : Result unit) :
  scrape_catalogue env n
    (world_of (__init__ env "http://books.toscrape.com" "checkpoint.json" h))
  = Some crawl ->
  exists w1 : World,
    main env n h
    = Some match print_stats env w1 with
           | Ret _ w' => Ret tt w'
           | Raise e w' => Raise e w'
           end /\
    self w1 = self (world_of crawl) /\
    match crawl with
    | Ret _ wc =>
        match print_stats env wc with
        | Ret _ wp =>
            trace (host w1)
            = ELog INFO "Scraping termine avec succes" :: trace (host wp)
        | Raise _ wp =>
            trace (host w1) = ELog ERROR "Erreur fatale" :: trace (host wp)
        end
    | Raise e wc =>
        trace (host w1)
        = (if isinstance_KeyboardInterrupt e
           then ELog INFO "Scraping interrompu par l'utilisateur"
           else ELog ERROR "Erreur fatale") :: trace (host wc)
    end.
Proof.
  intros H. unfold main.
  destruct (init_effect env "http://books.toscrape.com" "checkpoint.json" h)
    as (w0 & E & _).
  rewrite E in *. cbn [world_of] in H. rewrite H.
  unfold try_finally, try_except, bind at 1.
  destruct crawl as [[] wc|e wc].
  - unfold bind. cbn [world_of].
    pose proof (print_stats_effect env wc) as (Ps & _).
    destruct (print_stats env wc) as [u wp|e wp] eqn:P; cbn [world_of] in Ps.
    + eexists. split; [unfold log, emit; reflexivity|].
      cbn. split; [exact Ps | reflexivity].
    + assert (Ex : isinstance_Exception e = true).
      { revert P. unfold print_stats, bind, get_self, datetime_now.
        destruct (seconds_between env _ _) as [el|];
          [|intros P; injection P as <- _; reflexivity].
        unfold emit, raise, ret. destruct (_ && _); intros P;
          [injection P as <- _; reflexivity | discriminate P]. }
      destruct e; try discriminate Ex;
        cbn [isinstance_KeyboardInterrupt isinstance_Exception];
        (eexists; split; [unfold log, emit; reflexivity|]);
        cbn; (split; [exact Ps | reflexivity]).
  - cbn [world_of]. destruct e;
      cbn [isinstance_KeyboardInterrupt isinstance_Exception];
      (eexists; split; [unfold log, emit; reflexivity|]);
      cbn; (split; reflexivity).
Qed.


Lemma crawl_exits_witness :
  exists w',
    scrape_catalogue_step env_interrupted
      (Running (AtPage 1), fresh env_interrupted)
    = (Raised KeyboardInterrupt, w') /\
    written (host w') = 2%nat.
Proof.
  pose proof (crawl_exits env_interrupted (AtPage 1)
                (fresh env_interrupted)) as H.
  assert (D : disk_never_interrupts env_interrupted)
    by (intros k e [E|E]; discriminate E).
  specialize (H D).
  assert (E : iteration env_interrupted (AtPage 1) (fresh env_interrupted)
              = Raise KeyboardInterrupt
                  (world_of (iteration env_interrupted (AtPage 1)
                               (fresh env_interrupted))))
    by (vm_compute; reflexivity).
  rewrite E in H. destruct H as (e' & w' & H1 & _ & H3 & _ & _).
  exists w'. split; [|rewrite H3; vm_compute; reflexivity].
  rewrite H1. f_equal. f_equal.
  assert (E1 : fst (scrape_catalogue_step env_interrupted
                      (Running (AtPage 1), fresh env_interrupted))
               = Raised KeyboardInterrupt) by (vm_compute; reflexivity).
  rewrite H1 in E1. cbn [fst] in E1. injection E1 as ->. reflexivity.
Defined.

(** On a clean host the interrupted crawl ends [main] normally; restarted
    from a checkpoint whose [start_time] is no timestamp, [main] raises the
    [ValueError] of its last [print_stats]. *)
Lemma main_ends_with_report_witness :
  (exists w',
     main env_interrupted 1 clean_host = Some (Ret tt w') /\
     hd_error (trace (host w')) = Some EPrintStats) /\
  (exists w', main env_interrupted 1 stale_host = Some (Raise PyException w')).
Proof.
  split.
  - destruct (main_ends_with_report env_interrupted 1 clean_host
                (Raise KeyboardInterrupt
                   (snd (scrape_catalogue_run env_interrupted 1
                           (fresh env_interrupted)))))
      as (w1 & H1 & H2 & _); [vm_compute; reflexivity|].
    rewrite H1. unfold print_stats, bind, get_self, datetime_now.
    rewrite H2. vm_compute. eexists. split; reflexivity.
  - destruct (main_ends_with_report env_interrupted 1 stale_host
                (Raise PyException
                   (snd (scrape_catalogue_run env_interrupted 1
                           (world_of
                              (__init__ env_interrupted
                                 "http://books.toscrape.com" "checkpoint.json"
                                 stale_host))))))
      as (w1 & H1 & _); [vm_compute; reflexivity|].
    eexists. vm_compute. reflexivity.
Defined.

(** ** The key of a link *)

Lemma drop_app (a s : string) : drop (String.length a) (a ++ s) = s.
Proof. induction a as [|c a IH]; [destruct s|]; cbn; auto. Qed.

Lemma replace_from_absent (old new : string) (fuel : nat) :
  forall s, contains old s = false -> replace_from fuel old new s = s.
Proof.
  induction fuel as [|fuel IH]; intros s H; [reflexivity|].
  destruct s as [|c s]; [reflexivity|].
  cbn [contains] in H. apply orb_false_iff in H. destruct H as [H1 H2].
  cbn [replace_from]. rewrite H1, (IH s H2). reflexivity.
Qed.

Lemma replace_prefixed (old new x : string) :
  old <> EmptyString ->
  contains old x = false ->
  replace old new (old ++ x) = (new ++ x)%string.
Proof.
  intros Ho Hx. unfold replace.
  destruct old as [|c old]; [contradiction|].
  assert (Hp : String.prefix (String c old) (String c (old ++ x)) = true)
    by (apply prefix_app; exists x; reflexivity).
  cbn [String.append String.length replace_from drop].
  rewrite Hp, drop_app, replace_from_absent; [reflexivity | exact Hx].
Qed.

(** X15: a link gives the same key with and without its relative prefix.
    For a path [x] in which ["../../../"] does not occur, the links [x] and
    ["../../../" ++ x] both lead to the key [base_url/catalogue/x], so that
    a book linked in both ways is one book for the scraper. *)
Theorem book_url_ignores_prefix (w : World) (x : string) :
  contains "../../../" x = false ->
  book_url_of w ("../../../" ++ x) = book_url_of w x /\
  book_url_of w x = (base_url (self w) ++ "/catalogue/" ++ x)%string.
Proof.
  intros H. unfold book_url_of.
  rewrite (replace_prefixed "../../../" "" x); [|discriminate|exact H].
  unfold replace. rewrite (replace_from_absent _ _ _ _ H). auto.
Qed.

Lemma book_url_ignores_prefix_witness :
  let w := fresh env_crawl in
  book_url_of w "../../../book-3/index.html"
  = "http://books.toscrape.com/catalogue/book-3/index.html".
Proof.
  cbv zeta.
  destruct (book_url_ignores_prefix (fresh env_crawl) "book-3/index.html")
    as [H1 H2]; [reflexivity|].
  change ("../../../book-3/index.html")
    with ("../../../" ++ "book-3/index.html")%string.
  rewrite H1, H2. reflexivity.
Defined.

(** ** One book *)

(** X16: [scrape_book] adds a book or changes nothing.  When it returns a
    book, that book has the key asked for, the key was not there before,
    the book is the last of [scraped_books] and [books_scraped] counts it;
    when it returns [None] (known key, fetch given up, page that does not
    parse) or raises, the books and their count are what they were, and
    what it raises is no exception of [requests].  It never touches the
    checkpoint file. *)
Theorem scrape_book_all_or_nothing (env : Env) (u : string) (w : World) :
  let res := scrape_book env u w in
  disk_file (host (world_of res)) = disk_file (host w) /\
  match res with
  | Ret (Some b) w' =>
      url b = u /\ ~ In u (keys w) /\
      scraped_books (self w') = scraped_books (self w) ++ [b] /\
      books_scraped (stats (self w')) = books_scraped (stats (self w)) + 1
  | Ret None w' =>
      scraped_books (self w') = scraped_books (self w) /\
      books_scraped (stats (self w')) = books_scraped (stats (self w))
  | Raise e w' =>
      scraped_books (self w') = scraped_books (self w) /\
      books_scraped (stats (self w')) = books_scraped (stats (self w)) /\
      isinstance_RequestException e = false
  end.
Proof.
  cbv zeta.
  assert (Q : quiet (scrape_book env u w)).
  { unfold scrape_book, bind at 1, get_self.
    destruct (existsb _ _); [exact I|]. unfold bind at 1.
    pose proof (make_request_quiet env u 0 w) as Q.
    destruct (make_request env u 0 w) as [[r|] w1|e w1]; [|exact I|exact Q].
    destruct (negb (ok r)); [exact I|].
    unfold try_except, extract_book, bind at 1.
    destruct (soup_book env (text r)); exact I. }
  destruct (scrape_book_effect env u w)
    as [[K N] | (b & w' & E & Hu & Hn & Hb & Hc & Hf & _)].
  - unfold kept in K. injection K as _ _ _ _ _ _ K7 K8 _ K10 _.
    split; [exact K10|].
    destruct (scrape_book env u w) as [[b|] w'|e w']; cbn [world_of] in *.
    + exfalso. exact (N b w' eq_refl).
    + auto.
    + auto.
  - rewrite E. cbn [world_of]. auto.
Qed.


